(** * DayOne to Obsidian converter: a shallow embedding and its properties

    The development follows [convert_dayone_to_obsidian.py] function by
    function.  Python [str] values are sequences of Unicode code points,
    the output directory is a finite map from file names to file contents,
    and the per-entry [try]/[except] of [process_entries] is explicit
    state passing with an error result. *)

From Stdlib Require Import ZArith NArith Ascii String List Lia Bool.
From stdpp Require Import base option list gmap.

Local Open Scope N_scope.

(** ** Python strings *)

(** A [str] is a sequence of code points; [ord c] is the number itself. *)
Definition char : Type := N.
Definition pystr : Type := list char.

(** Literals are written as Rocq strings and read byte by byte (ASCII). *)
Definition str (s : string) : pystr :=
  map N_of_ascii (list_ascii_of_string s).

Definition chr (a : ascii) : char := N_of_ascii a.

Definition NL : char := 10.
Definition SPACE : char := 32.

(** [str.isspace] on one character, which is also the class [\s] of [re]
    for [str] patterns: the ASCII separators 9-13 and 28-32 and the Unicode
    white space of the character database. *)
Definition isspace (c : char) : bool :=
  ((9 <=? c) && (c <=? 13)) || ((28 <=? c) && (c <=? 32))
  || (c =? 133) || (c =? 160) || (c =? 5760)
  || ((8192 <=? c) && (c <=? 8202))
  || (c =? 8232) || (c =? 8233) || (c =? 8239) || (c =? 8287) || (c =? 12288).

(** A Python object is false when it is [None] or empty. *)
Definition truthy (s : pystr) : bool :=
  match s with [] => false | _ => true end.

Definition truthy_opt (o : option pystr) : bool :=
  match o with Some s => truthy s | None => false end.

Definition char_eqb (a b : char) : bool := N.eqb a b.

Fixpoint str_eqb (a b : pystr) : bool :=
  match a, b with
  | [], [] => true
  | x :: a', y :: b' => char_eqb x y && str_eqb a' b'
  | _, _ => false
  end.

(** [c in s] for a one-character [c]. *)
Definition mem_char (c : char) (s : pystr) : bool := existsb (char_eqb c) s.

(** [s.startswith(p)] *)
Fixpoint startswith (p s : pystr) : bool :=
  match p, s with
  | [], _ => true
  | x :: p', y :: s' => char_eqb x y && startswith p' s'
  | _ :: _, [] => false
  end.

(** [s.endswith(p)] *)
Definition endswith (p s : pystr) : bool := startswith (rev p) (rev s).

(** [s.lstrip()], [s.rstrip()] and [s.strip()] without argument. *)
Fixpoint lstrip (s : pystr) : pystr :=
  match s with
  | c :: r => if isspace c then lstrip r else s
  | [] => []
  end.

Definition rstrip (s : pystr) : pystr := rev (lstrip (rev s)).

Definition strip (s : pystr) : pystr := rstrip (lstrip s).

(** [s.strip(ch)] for a one-character argument. *)
Fixpoint lstrip_char (ch : char) (s : pystr) : pystr :=
  match s with
  | c :: r => if char_eqb c ch then lstrip_char ch r else s
  | [] => []
  end.

Definition strip_char (ch : char) (s : pystr) : pystr :=
  rev (lstrip_char ch (rev (lstrip_char ch s))).

(** [s.rfind(c)] for a one-character [c]: the highest index, or -1. *)
Fixpoint rfind_from (c : char) (s : pystr) (i : Z) (found : Z) : Z :=
  match s with
  | [] => found
  | x :: r => rfind_from c r (i + 1)%Z (if char_eqb x c then i else found)
  end.

Definition rfind (c : char) (s : pystr) : Z := rfind_from c s 0%Z (-1)%Z.

(** [s.split('\n')] *)
Fixpoint split_lines_acc (s : pystr) (cur : pystr) : list pystr :=
  match s with
  | [] => [rev cur]
  | c :: r =>
      if char_eqb c NL then rev cur :: split_lines_acc r []
      else split_lines_acc r (c :: cur)
  end.

Definition split_lines (s : pystr) : list pystr := split_lines_acc s [].

(** Lexicographic order of code points: [a <= b] on [str]. *)
Fixpoint str_le (a b : pystr) : bool :=
  match a, b with
  | [], _ => true
  | _ :: _, [] => false
  | x :: a', y :: b' =>
      if x <? y then true else if y <? x then false else str_le a' b'
  end.

(** ** [sanitize_filename] *)

(** The characters the first substitution removes: less-than, greater-than,
    colon, double quote (code 34), slash, backslash, bar, question mark and
    star. *)
Definition forbidden : pystr :=
  Eval cbv in str "<>:/\|?*" ++ [34].

Definition is_forbidden (c : char) : bool := mem_char c forbidden.

(** The first [re.sub]: forbidden characters are deleted. *)
Definition remove_special (text : pystr) : pystr :=
  filter (fun c => negb (is_forbidden c) = true) text.

(** [re.sub(r'\s+', ' ', s)]: every maximal run of white space becomes one
    space; [in_run] tells that the previous character was white space. *)
Fixpoint collapse_from (in_run : bool) (s : pystr) : pystr :=
  match s with
  | [] => []
  | c :: r =>
      if isspace c
      then (if in_run then collapse_from true r else SPACE :: collapse_from true r)
      else c :: collapse_from false r
  end.

Definition collapse_spaces (s : pystr) : pystr := collapse_from false s.

Definition Untitled : pystr := Eval cbv in str "Untitled".

Definition sanitize_filename (text : pystr) (max_length : nat) : pystr :=
  if negb (truthy text) then Untitled
  else
    let sanitized := remove_special text in
    let sanitized := collapse_spaces sanitized in
    let sanitized := strip sanitized in
    if negb (truthy sanitized) then Untitled
    else
      let sanitized :=
        if (max_length <? length sanitized)%nat then
          let truncated := take max_length sanitized in
          let last_space := rfind SPACE truncated in
          let truncated :=
            if (20 <? last_space)%Z then take (Z.to_nat last_space) truncated
            else truncated in
          strip truncated
        else sanitized in
      if truthy sanitized then sanitized else Untitled.

(** The default [max_length=50], which every caller uses. *)
Definition sanitize (text : pystr) : pystr := sanitize_filename text 50.


(** ** [extract_title] *)

Definition BANG_BRACKET : pystr := Eval cbv in str "![".
Definition BRACKET_PAREN : pystr := Eval cbv in str "](".
Definition HASH : char := 35.
Definition RPAREN : char := 41.

(** The tail of the image pattern: any characters but a newline, a closing
    parenthesis, then the end of the string (or a final newline, where the
    dollar sign also matches). *)
Fixpoint closes_paren (s : pystr) : bool :=
  match s with
  | [] => false
  | c :: r =>
      (char_eqb c RPAREN && match r with [] => true | [d] => char_eqb d NL | _ => false end)
      || (negb (char_eqb c NL) && closes_paren r)
  end.

(** Any characters but a newline, then a closing bracket, an opening
    parenthesis and [closes_paren]. *)
Fixpoint alt_then_target (s : pystr) : bool :=
  (startswith BRACKET_PAREN s && closes_paren (drop 2 s))
  || match s with
     | c :: r => negb (char_eqb c NL) && alt_then_target r
     | [] => false
     end.

(** [re.match] of the pattern for a line that is only an image reference:
    bang, bracket, anything, bracket, parenthesis, anything, parenthesis. *)
Definition is_image_only (s : pystr) : bool :=
  startswith BANG_BRACKET s && alt_then_target (drop 2 s).

(** The header substitution: leading hash signs, then white space. *)
Definition strip_header_marks (line : pystr) : pystr :=
  lstrip (lstrip_char HASH line).

(** The loop over [lines]: the first line that is neither empty nor an image
    reference nor a line that begins like one. *)
Fixpoint first_title_line (lines : list pystr) : option pystr :=
  match lines with
  | [] => None
  | line :: rest =>
      let line := strip line in
      if truthy line && negb (is_image_only line)
                     && negb (startswith BANG_BRACKET line)
      then Some line
      else first_title_line rest
  end.

Definition extract_title (text : pystr) : pystr :=
  if negb (truthy text) then Untitled
  else
    let lines := split_lines (strip text) in
    let first_line := match lines with l :: _ => strip l | [] => [] end in
    let fallback :=
      match first_title_line lines with
      | Some line => sanitize line
      | None => Untitled
      end in
    if startswith [HASH] first_line then
      let title := strip_header_marks first_line in
      if negb (is_image_only (strip title)) then sanitize title
      else fallback
    else fallback.

(** ** Dates: the part of [datetime] the converter uses *)

Local Open Scope Z_scope.

(** An aware or naive [datetime]; [tzinfo] is the offset in seconds when the
    value is aware.  The converter never reads the offset. *)
Record datetime := mk_datetime {
  year : Z; month : Z; day : Z;
  hour : Z; minute : Z; second : Z; microsecond : Z;
  tzinfo : option Z
}.

(** The fields are in the ranges the [datetime] constructor enforces. *)
Definition valid_time (dt : datetime) : Prop :=
  0 <= hour dt < 24 /\ 0 <= minute dt < 60 /\ 0 <= second dt < 60
  /\ 0 <= microsecond dt < 1000000.

Definition is_leap (y : Z) : bool :=
  (y mod 4 =? 0) && (negb (y mod 100 =? 0) || (y mod 400 =? 0)).

Definition days_before_year (y : Z) : Z :=
  let y := y - 1 in y * 365 + y / 4 - y / 100 + y / 400.

Definition DAYS_IN_MONTH (m : Z) : Z :=
  nth (Z.to_nat m) [-1; 31; 28; 31; 30; 31; 30; 31; 31; 30; 31; 30; 31] 0.

Definition DAYS_BEFORE_MONTH (m : Z) : Z :=
  nth (Z.to_nat m) [-1; 0; 31; 59; 90; 120; 151; 181; 212; 243; 273; 304; 334] 0.

Definition days_in_month (y m : Z) : Z :=
  if (m =? 2) && is_leap y then 29 else DAYS_IN_MONTH m.

Definition days_before_month (y m : Z) : Z :=
  DAYS_BEFORE_MONTH m + (if (2 <? m) && is_leap y then 1 else 0).

(** [date.toordinal]: the first of January of year 1 is day 1. *)
Definition ymd2ord (y m d : Z) : Z :=
  days_before_year y + days_before_month y m + d.

(** [date.fromordinal] *)
Definition ord2ymd (n : Z) : Z * Z * Z :=
  let n := n - 1 in
  let n400 := n / 146097 in let n := n mod 146097 in
  let y := n400 * 400 + 1 in
  let n100 := n / 36524 in let n := n mod 36524 in
  let n4 := n / 1461 in let n := n mod 1461 in
  let n1 := n / 365 in let n := n mod 365 in
  let y := y + n100 * 100 + n4 * 4 + n1 in
  if (n1 =? 4) || (n100 =? 4) then (y - 1, 12, 31)
  else
    let leapyear := (n1 =? 3) && (negb (n4 =? 24) || (n100 =? 3)) in
    let m := Z.shiftr (n + 50) 5 in
    let preceding := DAYS_BEFORE_MONTH m + (if (2 <? m) && leapyear then 1 else 0) in
    let '(m, preceding) :=
      if n <? preceding
      then (m - 1, preceding - (DAYS_IN_MONTH (m - 1)
                                + (if (m - 1 =? 2) && leapyear then 1 else 0)))
      else (m, preceding) in
    (y, m, n - preceding + 1).

Definition MAXORDINAL : Z := 3652059.

(** [date.weekday]: Monday is 0 and Sunday is 6. *)
Definition weekday (y m d : Z) : Z := (ymd2ord y m d + 6) mod 7.

(** [dt + timedelta(seconds=secs)]; [None] is the [OverflowError] of a
    result outside the years 1 to 9999. *)
Definition add_seconds (dt : datetime) (secs : Z) : option datetime :=
  let total := ymd2ord (year dt) (month dt) (day dt) * 86400
               + hour dt * 3600 + minute dt * 60 + second dt + secs in
  let days := total / 86400 in
  let rem := total mod 86400 in
  if (0 <? days) && (days <=? MAXORDINAL) then
    let '(y, m, d) := ord2ymd days in
    Some (mk_datetime y m d (rem / 3600) (rem mod 3600 / 60) (rem mod 60)
            (microsecond dt) (tzinfo dt))
  else None.

Definition add_days (dt : datetime) (n : Z) : option datetime :=
  add_seconds dt (n * 86400).

Definition add_hours (dt : datetime) (n : Z) : option datetime :=
  add_seconds dt (n * 3600).

(** The order of two [datetime] values that carry the same [tzinfo]. *)
Definition dt_key (dt : datetime) : list Z :=
  [year dt; month dt; day dt; hour dt; minute dt; second dt; microsecond dt].

Fixpoint lex_leb (a b : list Z) : bool :=
  match a, b with
  | [], _ => true
  | _ :: _, [] => false
  | x :: a', y :: b' =>
      if x <? y then true else if y <? x then false else lex_leb a' b'
  end.

Definition dt_leb (a b : datetime) : bool := lex_leb (dt_key a) (dt_key b).
Definition dt_ltb (a b : datetime) : bool := negb (dt_leb b a).

Definition UTC_TZ : option Z := Some 0.

(** [datetime(y, m, 1, tzinfo=timezone.utc)] *)
Definition first_of_month (y m : Z) : datetime :=
  mk_datetime y m 1 0 0 0 0 UTC_TZ.

(** [dt.replace(tzinfo=...)] *)
Definition replace_tzinfo (dt : datetime) (tz : option Z) : datetime :=
  mk_datetime (year dt) (month dt) (day dt) (hour dt) (minute dt) (second dt)
    (microsecond dt) tz.

(** [is_dst]: the two additions cannot overflow for a year of a [datetime],
    an overflow would be an exception and is [None] here. *)
Definition is_dst (dt : datetime) : option bool :=
  let y := year dt in
  let march_first := first_of_month y 3 in
  let days_until_sunday := (6 - weekday y 3 1) mod 7 in
  match add_days march_first (days_until_sunday + 7) with
  | None => None
  | Some dst_start =>
      let nov_first := first_of_month y 11 in
      let days_until_sunday := (6 - weekday y 11 1) mod 7 in
      match add_days nov_first days_until_sunday with
      | None => None
      | Some dst_end =>
          let dt' := replace_tzinfo dt UTC_TZ in
          Some (dt_leb dst_start dt' && dt_ltb dt' dst_end)
      end
  end.

(** The two offset tables, in hours from UTC. *)
Definition TIMEZONE_OFFSETS_STD : list (pystr * Z) := Eval cbv in
  [ (str "America/Chicago", -6); (str "America/New_York", -5);
    (str "America/Denver", -7); (str "America/Los_Angeles", -8);
    (str "America/Phoenix", -7); (str "UTC", 0) ].

Definition TIMEZONE_OFFSETS_DST : list (pystr * Z) := Eval cbv in
  [ (str "America/Chicago", -5); (str "America/New_York", -4);
    (str "America/Denver", -6); (str "America/Los_Angeles", -7);
    (str "America/Phoenix", -7); (str "UTC", 0) ].

(** [d.get(key, default)] on a table written as a list of pairs. *)
Fixpoint dict_get {V} (d : list (pystr * V)) (key : pystr) (default : V) : V :=
  match d with
  | [] => default
  | (k, v) :: rest => if str_eqb k key then v else dict_get rest key default
  end.

Definition dict_has {V} (d : list (pystr * V)) (key : pystr) : bool :=
  existsb (fun kv => str_eqb (fst kv) key) d.

Definition get_timezone_offset (timezone_str : pystr) (dt : datetime) : option Z :=
  match is_dst dt with
  | None => None
  | Some true => Some (dict_get TIMEZONE_OFFSETS_DST timezone_str (-6))
  | Some false => Some (dict_get TIMEZONE_OFFSETS_STD timezone_str (-6))
  end.


(** ** What the Python runtime provides *)

(** A number of the export: the literal as the JSON text has it.  Python
    reads it as an [int] or a [float]; floating point is left to the runtime
    below. *)
Inductive number := JsonNumber (literal : pystr).

Definition lower_ascii (c : char) : char :=
  if ((65 <=? c) && (c <=? 90))%N then (c + 32)%N else c.

Definition is_ascii (c : char) : bool := (c <? 128)%N.

Definition STAR : char := 42%N.

(** Characters with a meaning of their own in a [glob] pattern (star,
    question mark, brackets), path separators and the null character. *)
Definition glob_special (c : char) : bool :=
  mem_char c (42 :: 63 :: 91 :: 93 :: 47 :: 92 :: 0 :: nil)%N.

Definition glob_plain (s : pystr) : bool := forallb (fun c => negb (glob_special c)) s.

(** Library functions the embedding does not unfold: each is a function of
    its arguments, and the two laws say what every Python on a POSIX system
    guarantees about them. *)
Class PyRuntime := {
  (** [datetime.fromisoformat]; [None] is its [ValueError] *)
  fromisoformat : pystr -> option datetime;
  (** [str.lower] *)
  str_lower : pystr -> pystr;
  str_lower_ascii :
    forall s, forallb is_ascii s = true -> str_lower s = map lower_ascii s;
  (** [str(x)] of a parsed number, as an f-string prints it *)
  number_str : number -> pystr;
  (** [round(celsius * 9/5 + 32)] in floating point *)
  round_fahrenheit : number -> Z;
  (** [list(directory.glob(pattern))] over the names in the directory;
      [None] is an exception raised for the pattern *)
  glob : pystr -> gset pystr -> option (list pystr);
  glob_star_plain :
    forall lit (names : gset pystr), glob_plain lit = true ->
      exists l, glob (STAR :: lit) names = Some l
        /\ forall n, n ∈ l <-> n ∈ names /\ endswith lit n = true
}.

Section Converter.

Context `{rt : PyRuntime}.

(** ** [celsius_to_fahrenheit], [normalize_extension] *)

Definition celsius_to_fahrenheit (celsius : number) : Z := round_fahrenheit celsius.

Definition JPEG : pystr := Eval cbv in str "jpeg".
Definition JPG : pystr := Eval cbv in str "jpg".

Definition normalize_extension (ext : pystr) : pystr :=
  let ext := if truthy ext then str_lower ext else JPEG in
  if str_eqb ext JPG then JPEG else ext.

(** ** [convert_image_links] *)

Record photo := mk_photo {
  photo_identifier : option pystr;
  photo_md5 : option pystr;
  photo_type : option pystr
}.

(** [d.get(key, default)] on an optional field. *)
Definition get_or {A} (field : option A) (default : A) : A :=
  match field with Some v => v | None => default end.

Definition is_hex (c : char) : bool :=
  (((65 <=? c) && (c <=? 70)) || ((97 <=? c) && (c <=? 102))
   || ((48 <=? c) && (c <=? 57)))%N.

(** The longest run of hexadecimal characters and what follows it. *)
Fixpoint span_hex (s : pystr) : pystr * pystr :=
  match s with
  | c :: r =>
      if is_hex c then let '(h, rest) := span_hex r in (c :: h, rest)
      else ([], s)
  | [] => ([], [])
  end.

Definition MOMENT_TARGET : pystr := Eval cbv in str "](dayone-moment://".

(** The pattern from the closing bracket on: the scheme, the group of
    hexadecimal characters, the closing parenthesis.  The result is the
    group and the text after the match. *)
Definition match_target (s : pystr) : option (pystr * pystr) :=
  if startswith MOMENT_TARGET s then
    let '(identifier, rest) := span_hex (drop (length MOMENT_TARGET) s) in
    match rest with
    | c :: rest' => if char_eqb c RPAREN then Some (identifier, rest') else None
    | [] => None
    end
  else None.

(** The lazy run of characters other than a newline, then [match_target]:
    the shortest run wins. *)
Fixpoint match_alt (s : pystr) : option (pystr * pystr) :=
  match match_target s with
  | Some r => Some r
  | None =>
      match s with
      | c :: r => if char_eqb c NL then None else match_alt r
      | [] => None
      end
  end.

(** The whole pattern, tried at the head of [s]. *)
Definition match_image (s : pystr) : option (pystr * pystr) :=
  if startswith BANG_BRACKET s then match_alt (drop 2 s) else None.

(** [re.sub(pattern, replace_image, text)]: left to right, each match is
    replaced and the scan goes on after it; [skip] counts the characters of
    the current match that are still to be passed over. *)
Fixpoint sub_images (replace_image : pystr -> pystr) (skip : nat) (text : pystr)
  : pystr :=
  match text with
  | [] => []
  | c :: rest =>
      match skip with
      | S k => sub_images replace_image k rest
      | O =>
          match match_image text with
          | Some (identifier, remaining) =>
              replace_image identifier
              ++ sub_images replace_image (length rest - length remaining) rest
          | None => c :: sub_images replace_image 0 rest
          end
      end
  end.

(** The loop that fills [ext_map]; a later photo overwrites an earlier one
    with the same identifier. *)
Definition build_ext_map (photos_info : list photo) : gmap pystr pystr :=
  fold_left
    (fun ext_map ph =>
       let identifier := get_or (photo_identifier ph) [] in
       let photo_type := normalize_extension (get_or (photo_type ph) JPEG) in
       <[identifier := photo_type]> ext_map)
    photos_info ∅.

Definition PHOTOS_OPEN : pystr := Eval cbv in str "![[photos/".
Definition PHOTOS_CLOSE : pystr := Eval cbv in str "]]".
Definition DOT : char := 46%N.

Definition replace_image (ext_map : gmap pystr pystr) (identifier : pystr) : pystr :=
  if negb (truthy identifier) then []
  else
    let ext := default JPEG (ext_map !! identifier) in
    PHOTOS_OPEN ++ identifier ++ [DOT] ++ ext ++ PHOTOS_CLOSE.

Definition convert_image_links (text : pystr) (photos_info : list photo) : pystr :=
  if negb (truthy text) then text
  else sub_images (replace_image (build_ext_map photos_info)) 0 text.


(** ** Entries of the export *)

Record location := mk_location {
  address : option pystr;
  latitude : option number;
  longitude : option number
}.

Record weather := mk_weather {
  conditionsDescription : option pystr;
  temperatureCelsius : option number
}.

(** One entry object; a field is [None] when the key is absent. *)
Record entry := mk_entry {
  uuid : option pystr;
  text : option pystr;
  creationDate : option pystr;
  modifiedDate : option pystr;
  timeZone : option pystr;
  entry_location : option location;
  entry_weather : option weather;
  tags : option (list pystr);
  starred : option bool;
  isPinned : option bool;
  creationDevice : option pystr;
  photos : option (list photo)
}.

(** ** [convert_to_local_time], [format_local_datetime] *)

Definition LETTER_Z : char := 90%N.
Definition PLUS_ZERO : pystr := Eval cbv in str "+00:00".

(** [s.replace('Z', '+00:00')] *)
Definition replace_Z (s : pystr) : pystr :=
  concat (map (fun c => if char_eqb c LETTER_Z then PLUS_ZERO else [c]) s).

Definition convert_to_local_time (iso_date_str timezone_str : pystr)
  : option datetime :=
  if negb (truthy iso_date_str) then None
  else
    match fromisoformat (replace_Z iso_date_str) with
    | None => None
    | Some dt =>
        match get_timezone_offset timezone_str dt with
        | None => None
        | Some offset_hours =>
            match add_hours dt offset_hours with
            | None => None
            | Some local_dt => Some (replace_tzinfo local_dt None)
            end
        end
    end.

Definition digit (n : Z) : char := Z.to_N (48 + n mod 10).

(** Decimal fields of [strftime], padded with zeros. *)
Definition pad2 (n : Z) : pystr := [digit (n / 10); digit n].
Definition pad4 (n : Z) : pystr :=
  [digit (n / 1000); digit (n / 100); digit (n / 10); digit n].

Definition DASH : char := 45%N.
Definition COLON : char := 58%N.
Definition LETTER_T : char := 84%N.

(** [dt.strftime('%Y-%m-%d')] *)
Definition strftime_date (dt : datetime) : pystr :=
  pad4 (year dt) ++ [DASH] ++ pad2 (month dt) ++ [DASH] ++ pad2 (day dt).

(** [dt.strftime('%Y-%m-%dT%H:%M:%S')] *)
Definition format_local_datetime (dt : datetime) : pystr :=
  strftime_date dt ++ [LETTER_T] ++ pad2 (hour dt) ++ [COLON]
  ++ pad2 (minute dt) ++ [COLON] ++ pad2 (second dt).

(** ** [format_weather], [build_frontmatter], [frontmatter_to_yaml] *)

(** Decimal digits of a natural number, most significant first. *)
Fixpoint digits_fuel (fuel : nat) (n : Z) (acc : pystr) : pystr :=
  match fuel with
  | O => acc
  | S k => if n <? 10 then digit n :: acc
           else digits_fuel k (n / 10) (digit n :: acc)
  end.

(** [str(n)] of an [int]. *)
Definition int_str (n : Z) : pystr :=
  if n <? 0 then DASH :: digits_fuel (S (Z.to_nat (Z.log2 (- n)))) (- n) []
  else digits_fuel (S (Z.to_nat (Z.log2 n))) n [].

Definition DEGREE_F : pystr := [176%N; 70%N].
Definition COMMA_SPACE : pystr := [44%N; 32%N].

(** [sep.join(parts)] *)
Fixpoint join (sep : pystr) (parts : list pystr) : pystr :=
  match parts with
  | [] => []
  | [p] => p
  | p :: rest => p ++ sep ++ join sep rest
  end.

Definition format_weather (weather_data : option weather) : option pystr :=
  match weather_data with
  | None => None
  | Some w =>
      let parts :=
        match conditionsDescription w with Some d => [d] | None => [] end
        ++ match temperatureCelsius w with
           | Some c => [int_str (celsius_to_fahrenheit c) ++ DEGREE_F]
           | None => []
           end in
      match parts with [] => None | _ => Some (join COMMA_SPACE parts) end
  end.

(** A value stored in the frontmatter dictionary. *)
Inductive scalar := SStr (s : pystr) | SNum (n : number).
Inductive fm_value :=
| VList (items : list scalar)
| VBool (b : bool)
| VStr (s : pystr).

Definition AMERICA_CHICAGO : pystr := Eval cbv in str "America/Chicago".

Definition opt_list {A} (o : option A) : list A :=
  match o with Some x => [x] | None => [] end.

(** The dictionary in insertion order. *)
Definition build_frontmatter (e : entry) : list (pystr * fm_value) :=
  let timezone_str := get_or (timeZone e) AMERICA_CHICAGO in
  let local_field key (field : option pystr) :=
    match field with
    | Some iso =>
        match convert_to_local_time iso timezone_str with
        | Some dt => [(key, VStr (format_local_datetime dt))]
        | None => []
        end
    | None => []
    end in
  let loc := get_or (entry_location e) (mk_location None None None) in
  match uuid e with Some u => [(str "uuid", VStr u)] | None => [] end
  ++ local_field (str "date") (creationDate e)
  ++ local_field (str "modified") (modifiedDate e)
  ++ (if truthy_opt (address loc)
      then [(str "location", VStr (get_or (address loc) []))] else [])
  ++ match latitude loc, longitude loc with
     | Some la, Some lo => [(str "coordinates", VList [SNum la; SNum lo])]
     | _, _ => []
     end
  ++ match format_weather (entry_weather e) with
     | Some w => if truthy w then [(str "weather", VStr w)] else []
     | None => []
     end
  ++ match tags e with
     | Some (t :: ts) => [(str "tags", VList (map SStr (t :: ts)))]
     | _ => []
     end
  ++ (if get_or (starred e) false then [(str "starred", VBool true)] else [])
  ++ (if get_or (isPinned e) false then [(str "pinned", VBool true)] else [])
  ++ match creationDevice e with Some d => [(str "device", VStr d)] | None => [] end
  ++ match timeZone e with Some z => [(str "timezone", VStr z)] | None => [] end.

Definition scalar_str (x : scalar) : pystr :=
  match x with SStr s => s | SNum n => number_str n end.

Definition DQUOTE : char := 34%N.
Definition BACKSLASH : char := 92%N.

(** The characters that make [frontmatter_to_yaml] quote a string: colon,
    hash, double and single quote, newline, brackets and braces. *)
Definition yaml_special : pystr := [58; 35; 34; 39; 10; 91; 93; 123; 125]%N.

Definition needs_quotes (value : pystr) : bool :=
  existsb (fun c => mem_char c value) yaml_special.

(** [value.replace] of a double quote by a backslash and a double quote *)
Definition escape_quotes (value : pystr) : pystr :=
  concat (map (fun c => if char_eqb c DQUOTE then [BACKSLASH; DQUOTE] else [c]) value).

Definition fm_lines (kv : pystr * fm_value) : list pystr :=
  let '(key, value) := kv in
  match value with
  | VList items =>
      if str_eqb key (str "coordinates") then
        match items with
        | a :: b :: _ =>
            [ key ++ [COLON];
              str "  - " ++ [DQUOTE] ++ scalar_str a ++ [DQUOTE];
              str "  - " ++ [DQUOTE] ++ scalar_str b ++ [DQUOTE] ]
        | _ => [key ++ [COLON]]
        end
      else (key ++ [COLON]) :: map (fun item => str "  - " ++ scalar_str item) items
  | VBool b => [key ++ str ": " ++ (if b then str "true" else str "false")]
  | VStr s =>
      if needs_quotes s
      then [key ++ str ": " ++ [DQUOTE] ++ escape_quotes s ++ [DQUOTE]]
      else [key ++ str ": " ++ s]
  end.

Definition YAML_FENCE : pystr := Eval cbv in str "---".

Definition frontmatter_to_yaml (fm : list (pystr * fm_value)) : pystr :=
  join [NL] ([YAML_FENCE] ++ concat (map fm_lines fm) ++ [YAML_FENCE]).

(** The text written to the entry's file: the frontmatter, a blank line and
    the converted body. *)
Definition full_content (e : entry) : pystr :=
  let yaml_fm := frontmatter_to_yaml (build_frontmatter e) in
  let content := convert_image_links (get_or (text e) []) (get_or (photos e) []) in
  yaml_fm ++ [NL; NL] ++ content.

(** ** [generate_filename] *)

Definition UNKNOWN_DATE : pystr := Eval cbv in str "Unknown-Date".
Definition UNKNOWN : pystr := Eval cbv in str "UNKNOWN".
Definition LPAREN : char := 40%N.
Definition DOT_MD : pystr := Eval cbv in str ").md".

Definition generate_filename (e : entry) : pystr :=
  let creation_date := get_or (creationDate e) [] in
  let timezone_str := get_or (timeZone e) AMERICA_CHICAGO in
  let date_str :=
    match convert_to_local_time creation_date timezone_str with
    | Some dt => strftime_date dt
    | None => UNKNOWN_DATE
    end in
  let title := extract_title (get_or (text e) []) in
  let uuid8 := take 8 (get_or (uuid e) UNKNOWN) in
  date_str ++ [SPACE] ++ title ++ [SPACE; LPAREN] ++ uuid8 ++ DOT_MD.


(** ** The file system and the command line *)

(** The five counters of [stats]. *)
Record stats := mk_stats {
  total : nat; created : nat; updated : nat; skipped : nat; errors : nat
}.

Definition stats0 : stats := mk_stats 0 0 0 0 0.

Definition bump_total (s : stats) : stats :=
  mk_stats (S (total s)) (created s) (updated s) (skipped s) (errors s).
Definition bump_created (s : stats) : stats :=
  mk_stats (total s) (S (created s)) (updated s) (skipped s) (errors s).
Definition bump_updated (s : stats) : stats :=
  mk_stats (total s) (created s) (S (updated s)) (skipped s) (errors s).
Definition bump_skipped (s : stats) : stats :=
  mk_stats (total s) (created s) (updated s) (S (skipped s)) (errors s).
Definition bump_errors (s : stats) : stats :=
  mk_stats (total s) (created s) (updated s) (skipped s) (S (errors s)).

(** The parsed command line. *)
Record args := mk_args {
  input : pystr; output : pystr;
  update : bool; dry_run : bool; verbose : bool
}.

(** One record appended to [conversion_log.txt]; the wall-clock time of the
    run is not part of the embedding. *)
Record log_record := mk_log_record {
  log_input : pystr; log_output : pystr; log_update_mode : bool;
  log_stats : stats
}.

(** What the run can touch.  [journal] is the directory
    [<output>/journal-entries] as a map from file names to contents, and
    [photos_out] its subdirectory [photos]; each is [None] while the
    directory does not exist.  [photos_src] is the directory [photos] next
    to the input file. *)
Record world := mk_world {
  journal : option (gmap pystr pystr);
  photos_out : option (gmap pystr pystr);
  conversion_log : list log_record;
  photos_src : gmap pystr pystr
}.

Definition set_journal (w : world) (j : option (gmap pystr pystr)) : world :=
  mk_world j (photos_out w) (conversion_log w) (photos_src w).
Definition set_photos_out (w : world) (p : option (gmap pystr pystr)) : world :=
  mk_world (journal w) p (conversion_log w) (photos_src w).
Definition set_log (w : world) (l : list log_record) : world :=
  mk_world (journal w) (photos_out w) l (photos_src w).

(** Lines the program prints. *)
Inductive line :=
| MsgInputNotFound | MsgParseFailed | MsgNoEntries
| MsgSkipNoText (u : option pystr)
| MsgSkipNotModified (filename : pystr)
| MsgUpdating (filename : pystr)
| MsgSkipExists (filename : pystr)
| MsgCreating (filename : pystr)
| MsgWouldWrite (filename : pystr)
| MsgPhotoNotFound (identifier : pystr)
| MsgWouldCopy (source dest : pystr)
| MsgCopied (source dest : pystr)
| MsgEntryError (u : option pystr)
| MsgSummary (s : stats)
| MsgLogWritten.

(** [print] under [if verbose]. *)
Definition say (verbose : bool) (l : line) : list line :=
  if verbose then [l] else [].

(** The result of a statement inside [try]: done, or an exception. *)
Inductive outcome (A : Type) := Done (a : A) | Raised.
Arguments Done {A} a.
Arguments Raised {A}.

Definition SLASH : char := 47%N.
Definition NUL : char := 0%N.

(** A name that denotes a file directly inside a directory: it has no path
    separator and no null character.  Creating any other name raises. *)
Definition writable (name : pystr) : bool :=
  negb (mem_char SLASH name) && negb (mem_char NUL name).

(** [open(dir / name, 'w')] followed by [write(content)]. *)
Definition write_file (dir : option (gmap pystr pystr)) (name content : pystr)
  : outcome (option (gmap pystr pystr)) :=
  match dir with
  | Some files =>
      if writable name then Done (Some (<[name := content]> files)) else Raised
  | None => Raised
  end.

(** [path.unlink()] *)
Definition unlink (dir : option (gmap pystr pystr)) (name : pystr)
  : outcome (option (gmap pystr pystr)) :=
  match dir with
  | Some files =>
      match files !! name with
      | Some _ => Done (Some (delete name files))
      | None => Raised
      end
  | None => Raised
  end.

(** [path.exists()] for a file of a directory. *)
Definition file_exists (dir : option (gmap pystr pystr)) (name : pystr) : bool :=
  match dir with
  | Some files => bool_decide (is_Some (files !! name))
  | None => false
  end.

(** ** [find_existing_file], [extract_modified_date_from_file] *)

Definition glob_pattern (uuid8 : pystr) : pystr :=
  [STAR; LPAREN] ++ uuid8 ++ DOT_MD.

Definition find_existing_file (w : world) (uuid8 : pystr) : outcome (option pystr) :=
  match journal w with
  | None => Done None
  | Some files =>
      match glob (glob_pattern uuid8) (dom files) with
      | Some matches => Done (head matches)
      | None => Raised
      end
  end.

Definition CR : char := 13%N.

(** Reading in text mode: a carriage return, alone or before a newline,
    is read as a newline. *)
Fixpoint universal_newlines (s : pystr) : pystr :=
  match s with
  | [] => []
  | c :: r =>
      if char_eqb c CR then
        NL :: match r with
              | d :: r' => if char_eqb d NL then universal_newlines r'
                           else universal_newlines r
              | [] => []
              end
      else c :: universal_newlines r
  end.

Definition MODIFIED_KEY : pystr := Eval cbv in str "modified:".

(** The characters up to the next newline. *)
Fixpoint rest_of_line (s : pystr) : pystr :=
  match s with
  | c :: r => if char_eqb c NL then [] else c :: rest_of_line r
  | [] => []
  end.

(** White space, as much as possible, then the group of one or more
    characters up to the end of the line; when nothing is left for the group
    the white space gives characters back. *)
Fixpoint spaces_then_value (s : pystr) : option pystr :=
  match s with
  | [] => None
  | c :: r =>
      if isspace c then
        match spaces_then_value r with
        | Some g => Some g
        | None => if char_eqb c NL then None else Some (rest_of_line s)
        end
      else Some (rest_of_line s)
  end.

Definition match_modified (s : pystr) : option pystr :=
  if startswith MODIFIED_KEY s
  then spaces_then_value (drop (length MODIFIED_KEY) s)
  else None.

(** [re.search] with [re.MULTILINE]: the first line start where the pattern
    matches. *)
Fixpoint search_modified (at_line_start : bool) (s : pystr) : option pystr :=
  match (if at_line_start then match_modified s else None) with
  | Some g => Some g
  | None =>
      match s with
      | c :: r => search_modified (char_eqb c NL) r
      | [] => None
      end
  end.

(** The function on the text of the file. *)
Definition extract_modified_date (content : pystr) : option pystr :=
  match search_modified true (universal_newlines content) with
  | Some g => Some (strip_char DQUOTE (strip g))
  | None => None
  end.

Definition extract_modified_date_from_file (w : world) (name : pystr)
  : option pystr :=
  match journal w with
  | Some files =>
      match files !! name with
      | Some content => extract_modified_date content
      | None => None
      end
  | None => None
  end.


(** ** [copy_photos] *)

Definition name_ext (base ext : pystr) : pystr := base ++ [DOT] ++ ext.

(** The first candidate name that exists in the source directory. *)
Definition first_existing (src : gmap pystr pystr) (candidates : list pystr)
  : option pystr :=
  find (fun n => bool_decide (is_Some (src !! n))) candidates.

Definition source_candidates (md5 identifier photo_type_raw photo_type : pystr)
  : list pystr :=
  [ name_ext md5 photo_type_raw; name_ext md5 photo_type;
    name_ext identifier photo_type_raw; name_ext identifier photo_type;
    name_ext md5 JPEG; name_ext identifier JPEG;
    name_ext md5 JPG; name_ext identifier JPG ].

Definition fallback_candidates (md5 : pystr) : list pystr :=
  map (name_ext md5) [JPG; JPEG; str "png"; str "gif"; str "heic"].

(** [shutil.copy2(source, dest)] into the output photo directory. *)
Definition copy_file (w : world) (source dest : pystr) : outcome world :=
  match photos_src w !! source with
  | Some bytes =>
      match write_file (photos_out w) dest bytes with
      | Done p => Done (set_photos_out w p)
      | Raised => Raised
      end
  | None => Raised
  end.

(** The body of the loop of [copy_photos] for one photo. *)
Definition copy_photo (dry verb : bool) (ph : photo) (w : world)
  : outcome (world * list line) :=
  let identifier := get_or (photo_identifier ph) [] in
  let md5 := get_or (photo_md5 ph) [] in
  let photo_type_raw := str_lower (get_or (photo_type ph) JPEG) in
  let photo_type := normalize_extension photo_type_raw in
  let source_file :=
    match first_existing (photos_src w)
            (source_candidates md5 identifier photo_type_raw photo_type) with
    | Some f => Some f
    | None => first_existing (photos_src w) (fallback_candidates md5)
    end in
  match source_file with
  | None => Done (w, say verb (MsgPhotoNotFound identifier))
  | Some source =>
      let dest := name_ext identifier photo_type in
      if negb (file_exists (photos_out w) dest) then
        if dry then Done (w, say verb (MsgWouldCopy source dest))
        else
          match copy_file w source dest with
          | Done w' => Done (w', say verb (MsgCopied source dest))
          | Raised => Raised
          end
      else Done (w, [])
  end.

(** The loop; an exception leaves the copies made so far in place.  The
    result is the world, the printed lines and whether an exception left the
    function. *)
Fixpoint copy_photos_loop (dry verb : bool) (phs : list photo) (w : world)
  : world * list line * bool :=
  match phs with
  | [] => (w, [], false)
  | ph :: rest =>
      match copy_photo dry verb ph w with
      | Raised => (w, [], true)
      | Done (w', out) =>
          let '(w'', out', raised) := copy_photos_loop dry verb rest w' in
          (w'', out ++ out', raised)
      end
  end.

Definition copy_photos (e : entry) (dry verb : bool) (w : world)
  : world * list line * bool :=
  copy_photos_loop dry verb (get_or (photos e) []) w.

(** ** [write_log] *)

Definition write_log (a : args) (s : stats) (w : world) : world :=
  set_log w (conversion_log w
             ++ [mk_log_record (input a) (output a) (update a) s]).

(** ** [process_entries] *)

(** The branch the loop body takes for an entry, with the matched file where
    there is one: the states of the reconciliation. *)
Inductive decision :=
| SkipNoText
| LookupRaised
| New
| Stale (existing_file : pystr)
| Current (existing_file : pystr)
| Blocked (existing_file : pystr).

Definition decide_entry (a : args) (e : entry) (w : world) : decision :=
  if negb (truthy_opt (text e)) then SkipNoText
  else
    let uuid8 := take 8 (get_or (uuid e) []) in
    match find_existing_file w uuid8 with
    | Raised => LookupRaised
    | Done None => New
    | Done (Some existing_file) =>
        if update a then
          let existing_modified := extract_modified_date_from_file w existing_file in
          let entry_modified := get_or (modifiedDate e) [] in
          if truthy_opt existing_modified
             && str_le entry_modified (get_or existing_modified [])
          then Current existing_file
          else Stale existing_file
        else Blocked existing_file
    end.

(** The state the loop carries. *)
Record run_state := mk_run {
  rs_stats : stats; rs_world : world; rs_out : list line
}.

(** The [except] clause. *)
Definition entry_failed (e : entry) (s : stats) (w : world) (out : list line)
  : run_state :=
  mk_run (bump_errors s) w (out ++ [MsgEntryError (uuid e)]).

(** From building the frontmatter to the end of the loop body. *)
Definition write_entry (a : args) (e : entry) (filename : pystr)
  (s : stats) (w : world) (out : list line) : run_state :=
  let content := full_content e in
  if negb (dry_run a) then
    match write_file (journal w) filename content with
    | Raised => entry_failed e s w out
    | Done j =>
        let '(w', out', raised) :=
          copy_photos e (dry_run a) (verbose a) (set_journal w j) in
        if raised then entry_failed e s w' (out ++ out')
        else mk_run s w' (out ++ out')
    end
  else if verbose a then
    let '(w', out', raised) := copy_photos e true (verbose a) w in
    if raised then entry_failed e s w' (out ++ [MsgWouldWrite filename] ++ out')
    else mk_run s w' (out ++ [MsgWouldWrite filename] ++ out')
  else mk_run s w out.

(** One iteration of the loop over the entries. *)
Definition process_entry (a : args) (st : run_state) (e : entry) : run_state :=
  let s := bump_total (rs_stats st) in
  let w := rs_world st in
  let out := rs_out st in
  let filename := generate_filename e in
  match decide_entry a e w with
  | SkipNoText =>
      mk_run (bump_skipped s) w (out ++ say (verbose a) (MsgSkipNoText (uuid e)))
  | LookupRaised => entry_failed e s w out
  | Current _ =>
      mk_run (bump_skipped s) w (out ++ say (verbose a) (MsgSkipNotModified filename))
  | Blocked _ =>
      mk_run (bump_skipped s) w (out ++ say (verbose a) (MsgSkipExists filename))
  | Stale existing_file =>
      let removed :=
        if negb (str_eqb existing_file filename) && negb (dry_run a)
        then unlink (journal w) existing_file
        else Done (journal w) in
      match removed with
      | Raised => entry_failed e s w out
      | Done j =>
          write_entry a e filename (bump_updated s) (set_journal w j)
            (out ++ say (verbose a) (MsgUpdating filename))
      end
  | New =>
      write_entry a e filename (bump_created s) w
        (out ++ say (verbose a) (MsgCreating filename))
  end.

(** [mkdir(parents=True, exist_ok=True)] of both directories. *)
Definition make_dirs (w : world) : world :=
  mk_world (Some (get_or (journal w) ∅)) (Some (get_or (photos_out w) ∅))
    (conversion_log w) (photos_src w).

(** What [Path(args.input)] holds: no file, a file that is not JSON, or an
    object with or without the key [entries]. *)
Inductive input_file :=
| Missing
| Unparseable
| Parsed (entries : option (list entry)).

(** What a run leaves: the status returned, the counters when the summary
    was printed, the lines printed and the file system. *)
Record result := mk_result {
  exit_status : Z;
  summary : option stats;
  printed : list line;
  final_world : world
}.

Definition process_entries (a : args) (inp : input_file) (w : world) : result :=
  match inp with
  | Missing => mk_result 1 None [MsgInputNotFound] w
  | Unparseable => mk_result 1 None [MsgParseFailed] w
  | Parsed data =>
      match get_or data [] with
      | [] => mk_result 0 None [MsgNoEntries] w
      | entries =>
          let w := if negb (dry_run a) then make_dirs w else w in
          let st := fold_left (process_entry a) entries (mk_run stats0 w []) in
          let s := rs_stats st in
          let out := rs_out st ++ [MsgSummary s] in
          let '(w, out) :=
            if negb (dry_run a)
            then (write_log a s (rs_world st), out ++ [MsgLogWritten])
            else (rs_world st, out) in
          mk_result (if (errors s =? 0)%nat then 0 else 1) (Some s) out w
      end
  end.

End Converter.

Arguments Done {A} a.
Arguments Raised {A}.

(* ================================================================== *)
(** * Vocabulary of the properties *)

(** ** File names *)

(** Everything of the file name before the parenthesis. *)
Definition filename_stem `{rt : PyRuntime} (e : entry) : pystr :=
  let date_str :=
    match convert_to_local_time (get_or (creationDate e) [])
            (get_or (timeZone e) AMERICA_CHICAGO) with
    | Some dt => strftime_date dt
    | None => UNKNOWN_DATE
    end in
  date_str ++ [SPACE] ++ extract_title (get_or (text e) []).

(** ** Daylight saving time *)

(** Sunday, as [weekday] numbers it. *)
Definition SUNDAY : Z := 6.

(** Day [d] of March is the second Sunday of March of year [y]. *)
Definition second_sunday_of_march (y d : Z) : Prop :=
  8 <= d <= 14 /\ weekday y 3 d = SUNDAY.

(** Day [d] of November is the first Sunday of November of year [y]. *)
Definition first_sunday_of_november (y d : Z) : Prop :=
  1 <= d <= 7 /\ weekday y 11 d = SUNDAY.

(** The calendar day of [dt] is day [d] of month [m] or a later day of the
    year; is an earlier day; is that day or an earlier one. *)
Definition on_or_after (dt : datetime) (m d : Z) : Prop :=
  m < month dt \/ (month dt = m /\ d <= day dt).
Definition strictly_before (dt : datetime) (m d : Z) : Prop :=
  month dt < m \/ (month dt = m /\ day dt < d).
Definition on_or_before (dt : datetime) (m d : Z) : Prop :=
  month dt < m \/ (month dt = m /\ day dt <= d).

(** [f] holds of the [fuel] integers from [x] on. *)
Fixpoint all_from (fuel : nat) (x : Z) (f : Z -> bool) : bool :=
  match fuel with
  | O => true
  | S k => f x && all_from k (x + 1) f
  end.

(** Adding [k] days, fewer than [kmax], to the first of month [m] of year
    [y] gives day [1 + k] of that month. *)
Definition month_start_ok (m : Z) (kmax : nat) (y : Z) : bool :=
  all_from kmax 0
    (fun k =>
       match ord2ymd (ymd2ord y m 1 + k) with
       | (y', m', d') => (y' =? y) && (m' =? m) && (d' =? 1 + k)
       end).

(** ** Image links *)

Definition RBRACKET : char := 93%N.
Definition BANG : char := 33%N.

(** [p in s] for a string [p]. *)
Fixpoint has_infix (p s : pystr) : bool :=
  startswith p s
  || match s with
     | _ :: r => has_infix p r
     | [] => false
     end.

(** The image token with alternative text [alt] and identifier
    [identifier]. *)
Definition image_token (alt identifier : pystr) : pystr :=
  BANG_BRACKET ++ alt ++ MOMENT_TARGET ++ identifier ++ [RPAREN].

(** The link that replaces a token. *)
Definition wiki_link (identifier ext : pystr) : pystr :=
  PHOTOS_OPEN ++ identifier ++ [DOT] ++ ext ++ PHOTOS_CLOSE.

(** ** Tokens that are not rewritten *)




(** ** The run: exit status and preview mode *)

(** The counters after the loop over [entries], started in [w]. *)
Definition loop_state `{rt : PyRuntime} (a : args) (entries : list entry) (w : world)
  : run_state :=
  fold_left (process_entry a) entries
    (mk_run stats0 (if negb (dry_run a) then make_dirs w else w) []).


(** ** Reconciliation *)

(** The key [process_entries] looks an entry up with: the first 8
    characters of its identifier, empty without identifier. *)
Definition entry_key (e : entry) : pystr := take 8 (get_or (uuid e) []).

(** What a file name must end with to match the key [k]. *)
Definition key_suffix (k : pystr) : pystr := [LPAREN] ++ k ++ DOT_MD.

(** The file name [name] matches the pattern of the lookup with key [k]. *)
Definition matches_key (k name : pystr) : bool := endswith (key_suffix k) name.


(** The entry has text. *)
Definition texted (e : entry) : bool := truthy_opt (text e).


(** ** Photos *)

(** Where [copy_photos] puts a photo, and where it takes it from. *)
Definition photo_dest `{rt : PyRuntime} (ph : photo) : pystr :=
  name_ext (get_or (photo_identifier ph) [])
    (normalize_extension (str_lower (get_or (photo_type ph) JPEG))).

Definition photo_source `{rt : PyRuntime} (src : gmap pystr pystr) (ph : photo)
  : option pystr :=
  let identifier := get_or (photo_identifier ph) [] in
  let md5 := get_or (photo_md5 ph) [] in
  let photo_type_raw := str_lower (get_or (photo_type ph) JPEG) in
  let photo_type := normalize_extension photo_type_raw in
  match first_existing src
          (source_candidates md5 identifier photo_type_raw photo_type) with
  | Some f => Some f
  | None => first_existing src (fallback_candidates md5)
  end.


(** The photo directories of [w'] have the source files of [w] and at least
    the copies of [w]. *)
Definition photos_grow (w w' : world) : Prop :=
  photos_src w' = photos_src w
  /\ forall n, file_exists (photos_out w) n = true ->
               file_exists (photos_out w') n = true.

(** ** One entry *)


(** ** A step of update mode *)

(** At most one file of the directory matches the key. *)
Definition single_match (k : pystr) (files : gmap pystr pystr) : Prop :=
  forall n1 n2, n1 ∈ dom files -> n2 ∈ dom files ->
    matches_key k n1 = true -> matches_key k n2 = true -> n1 = n2.


(** ** Two runs in update mode *)







(** The file system a run over [entries] leaves. *)
Definition run_world `{rt : PyRuntime} (a : args) (entries : list entry) (w : world)
  : world :=
  final_world (process_entries a (Parsed (Some entries)) w).

(** ** Tidy titles *)

(** Every white space character of [s] is a space, and no two of them are
    next to each other; [prev_space] tells that a space comes just before
    [s]. *)
Fixpoint spaced_from (prev_space : bool) (s : pystr) : bool :=
  match s with
  | [] => true
  | c :: r =>
      if isspace c then char_eqb c SPACE && negb prev_space && spaced_from true r
      else spaced_from false r
  end.

(** [s] does not begin with white space. *)
Definition starts_clean (s : pystr) : bool :=
  match s with c :: _ => negb (isspace c) | [] => true end.

(** Words separated by single spaces: no other white space, none at either
    end. *)
Definition tidy (s : pystr) : bool :=
  spaced_from false s && starts_clean s && starts_clean (rev s).

(** No character of [s] is one that [sanitize_filename] removes. *)
Definition clean (s : pystr) : bool := forallb (fun c => negb (is_forbidden c)) s.

(** A character that a title never holds: a forbidden one, or white space
    other than the space. *)
Definition unwanted (c : char) : bool :=
  is_forbidden c || (isspace c && negb (char_eqb c SPACE)).

(** ** The frontmatter, line by line *)

(** A line of the frontmatter other than the one of the modification time:
    it has no line break of its own and does not begin with the letter m. *)
Definition other_line (l : pystr) : Prop :=
  mem_char NL l = false /\ mem_char CR l = false
  /\ match l with c :: _ => char_eqb 109%N c = false | [] => True end.

(** ** What a run leaves of the files it found *)

(** The files of the entries directory, and the copies of its photo
    directory; none while the directory does not exist. *)
Definition entry_files (w : world) : gmap pystr pystr := get_or (journal w) ∅.




(** The counters add up: every entry is counted in [total]; at most one of
    [created], [updated] and [skipped] goes up for an entry, and when none
    does the entry is counted as an error. *)
Definition counted (n : nat) (s : stats) : Prop :=
  total s = n
  /\ (created s + updated s + skipped s <= n)%nat
  /\ (n <= created s + updated s + skipped s + errors s)%nat
  /\ (errors s <= n)%nat.

(** ** What a run without error leaves for an entry *)



(** ** The preview and the run *)


(** ** Formatted times *)

(** The fields [format_local_datetime] prints fill their width: four digits
    for the year, two at most for the others. *)
Definition printable (dt : datetime) : Prop :=
  (1000 <= year dt < 10000 /\ 0 <= month dt < 100 /\ 0 <= day dt < 100
   /\ 0 <= hour dt < 100 /\ 0 <= minute dt < 100 /\ 0 <= second dt < 100)%Z.

(* ================================================================== *)
(** * A reference runtime

    It reads the timestamps of an export ([YYYY-MM-DDTHH:MM:SS], alone or
    followed by [+00:00]), lowers ASCII letters, prints a number as its
    literal, rounds with exact decimal arithmetic and answers [glob] for the
    patterns of the law.  The statements below that quantify over the
    runtime hold for every runtime; this one evaluates the converter on
    concrete inputs. *)

Definition digit_val (c : char) : option Z :=
  if ((48 <=? c) && (c <=? 57))%N then Some (Z.of_N c - 48) else None.

(** The decimal number written by [s], when every character is a digit. *)
Fixpoint parse_digits (acc : Z) (s : pystr) : option Z :=
  match s with
  | [] => Some acc
  | c :: r =>
      match digit_val c with
      | Some d => parse_digits (acc * 10 + d) r
      | None => None
      end
  end.

Definition parse_field (s : pystr) : option Z :=
  match s with [] => None | _ => parse_digits 0 s end.

Definition field_at (s : pystr) (start len : nat) : option Z :=
  if (length s <? start + len)%nat then None
  else parse_field (take len (drop start s)).

Definition char_at (s : pystr) (i : nat) : option char := nth_error s i.

Definition fromisoformat_ref (s : pystr) : option datetime :=
  match field_at s 0 4, field_at s 5 2, field_at s 8 2,
        field_at s 11 2, field_at s 14 2, field_at s 17 2 with
  | Some y, Some mo, Some d, Some h, Some mi, Some sec =>
      let seps_ok :=
        match char_at s 4, char_at s 7, char_at s 10, char_at s 13, char_at s 16 with
        | Some a, Some b, Some _, Some c, Some e =>
            char_eqb a DASH && char_eqb b DASH && char_eqb c COLON && char_eqb e COLON
        | _, _, _, _, _ => false
        end in
      let range_ok :=
        (1 <=? y) && (1 <=? mo) && (mo <=? 12) && (1 <=? d)
        && (d <=? days_in_month y mo) && (h <? 24) && (mi <? 60) && (sec <? 60) in
      let tail := drop 19 s in
      if seps_ok && range_ok then
        if str_eqb tail [] then Some (mk_datetime y mo d h mi sec 0 None)
        else if str_eqb tail PLUS_ZERO then Some (mk_datetime y mo d h mi sec 0 UTC_TZ)
        else None
      else None
  | _, _, _, _, _, _ => None
  end.

Definition str_lower_ref (s : pystr) : pystr := map lower_ascii s.

Definition number_str_ref (n : number) : pystr :=
  match n with JsonNumber literal => literal end.

(** The characters before the first [ch], and the rest from [ch] on. *)
Fixpoint span_until (ch : char) (s : pystr) : pystr * pystr :=
  match s with
  | c :: r =>
      if char_eqb c ch then ([], s)
      else let '(a, b) := span_until ch r in (c :: a, b)
  | [] => ([], [])
  end.

(** A decimal literal as a fraction: sign, digits, and digits after a dot. *)
Definition parse_decimal (s : pystr) : option (Z * Z) :=
  let '(sign, body) :=
    match s with
    | c :: r => if char_eqb c DASH then (-1, r) else (1, s)
    | [] => (1, s)
    end in
  let '(int_part, rest) := span_until DOT body in
  let frac_part := drop 1 rest in
  match parse_field int_part, parse_digits 0 frac_part with
  | Some i, Some f =>
      let den := 10 ^ Z.of_nat (length frac_part) in
      Some (sign * (i * den + f), den)
  | _, _ => None
  end.

(** Rounding of a fraction to the nearest integer, ties to the even one. *)
Definition round_half_even (num den : Z) : Z :=
  let q := num / den in
  let r2 := 2 * (num mod den) in
  if r2 <? den then q
  else if den <? r2 then q + 1
  else if Z.even q then q else q + 1.

Definition round_fahrenheit_ref (n : number) : Z :=
  match n with
  | JsonNumber literal =>
      match parse_decimal literal with
      | Some (num, den) => round_half_even (num * 9 + 32 * 5 * den) (5 * den)
      | None => 0
      end
  end.

Definition glob_ref (pattern : pystr) (names : gset pystr) : option (list pystr) :=
  match pattern with
  | c :: lit =>
      if char_eqb c STAR && glob_plain lit
      then Some (filter (fun n => endswith lit n = true) (elements names))
      else None
  | [] => None
  end.

Lemma str_lower_ref_ascii (s : pystr) :
  forallb is_ascii s = true -> str_lower_ref s = map lower_ascii s.
Proof. reflexivity. Qed.

Lemma glob_ref_star_plain (lit : pystr) (names : gset pystr) :
  glob_plain lit = true ->
  exists l, glob_ref (STAR :: lit) names = Some l
    /\ forall n, n ∈ l <-> n ∈ names /\ endswith lit n = true.
Proof.
  intros Hp. eexists. split.
  - unfold glob_ref. rewrite Hp. reflexivity.
  - intros n. rewrite list_elem_of_filter, elem_of_elements. tauto.
Qed.

#[export] Instance reference_runtime : PyRuntime := {|
  fromisoformat := fromisoformat_ref;
  str_lower := str_lower_ref;
  str_lower_ascii := str_lower_ref_ascii;
  number_str := number_str_ref;
  round_fahrenheit := round_fahrenheit_ref;
  glob := glob_ref;
  glob_star_plain := glob_ref_star_plain
|}.

(* ================================================================== *)
(** * Concrete inputs *)

(** ** Daylight saving time *)

(** A Sunday morning in November 2023, the first Sunday of that month. *)
Definition first_november_sunday_2023 : datetime :=
  mk_datetime 2023 11 5 1 0 0 0 UTC_TZ.

(** Noon of the first of July 2024. *)
Definition noon_july_2024 : datetime := mk_datetime 2024 7 1 12 0 0 0 UTC_TZ.

(** ** Image links *)

(** A photo of an export. *)
Definition sample_photo : photo :=
  mk_photo (Some (str "AB12")) (Some (str "0f0f")) (Some JPG).


(** ** Runs on concrete exports, with the reference runtime *)

(** An entry written at noon UTC on the first of January 2020 and not
    modified since, in the time zone UTC. *)
Definition utc_entry : entry :=
  mk_entry (Some (str "ABCDEF0123456789")) (Some (str "Hello"))
    (Some (str "2020-01-01T12:00:00Z")) (Some (str "2020-01-01T12:00:00Z"))
    (Some (str "UTC")) None None None None None None None.



(** An entry without text. *)
Definition textless_entry : entry :=
  mk_entry (Some (str "0123456789ABCDEF")) None None None None None None None
    None None None None.

(** Update mode, and the default mode. *)
Definition update_args : args :=
  mk_args (str "export.json") (str "out") true false false.
Definition default_args : args :=
  mk_args (str "export.json") (str "out") false false false.

(** An output directory that does not exist yet. *)
Definition fresh_world : world := mk_world None None [] ∅.

(** The file system after one run over [entries] in update mode. *)
Definition after_update_run (entries : list entry) (w : world) : world :=
  final_world (process_entries update_args (Parsed (Some entries)) w).

(** ** Exports of several entries *)

(** [utc_entry] with another text. *)
Definition retitled_entry : entry :=
  mk_entry (Some (str "ABCDEF0123456789")) (Some (str "# Another title"))
    (Some (str "2020-01-01T12:00:00Z")) (Some (str "2020-01-02T08:30:00Z"))
    (Some (str "UTC")) None None None None None None None.

(** An entry with one photo. *)
Definition pictured_entry : entry :=
  mk_entry (Some (str "1234567890AB")) (Some (str "![](dayone-moment://AB12)"))
    None None None None None None None None None (Some [sample_photo]).

(** An export of three entries, and the file system before the first run:
    no output directory, and the file of the photo next to the export. *)
Definition small_export : list entry := [utc_entry; textless_entry; pictured_entry].



(** ** Titles, links and times *)

(** A title, and a text that begins with it. *)
Definition plain_title : pystr := Eval cbv in str "My Day".

(** A Markdown image that is not a photo of the journal. *)
Definition web_image : pystr := Eval cbv in str "![alt](http://example.org/y.png)".

(** Noon UTC of the first of January 2020, as the export writes it, and as
    [fromisoformat] reads it. *)
Definition noon_2020_iso : pystr := Eval cbv in str "2020-01-01T12:00:00Z".
Definition noon_2020_utc : datetime := mk_datetime 2020 1 1 12 0 0 0 UTC_TZ.

(** An entries directory with one file, written by hand, that ends with the
    key of [utc_entry]. *)
Definition notes_files : gmap pystr pystr :=
  {[ str "My notes (ABCDEF01).md" := str "Hello" ]}.
Definition notes_world : world := mk_world (Some notes_files) None [] ∅.

(* ================================================================== *)
(** * Properties *)

Section StringFacts.

Implicit Types (s t : pystr) (c : char).

Lemma lstrip_suffix s : suffix (lstrip s) s.
Proof.
  induction s as [|c r IH]; simpl; [done|].
  destruct (isspace c); [|done]. by apply suffix_cons_r.
Qed.

Lemma lstrip_Forall (P : char -> Prop) s : Forall P s -> Forall P (lstrip s).
Proof.
  intros H. destruct (lstrip_suffix s) as [k Hk].
  rewrite Hk in H. by apply Forall_app in H as [_ H].
Qed.

Lemma lstrip_length s : (length (lstrip s) <= length s)%nat.
Proof.
  destruct (lstrip_suffix s) as [k Hk].
  rewrite Hk at 2. rewrite length_app. lia.
Qed.

Lemma rev_Forall (P : char -> Prop) s : Forall P s -> Forall P (rev s).
Proof.
  rewrite !Forall_forall. intros H x Hx. apply H.
  apply list_elem_of_In. apply list_elem_of_In in Hx. by apply in_rev.
Qed.

Lemma strip_Forall (P : char -> Prop) s : Forall P s -> Forall P (strip s).
Proof.
  intros H. unfold strip, rstrip.
  by apply rev_Forall, lstrip_Forall, rev_Forall, lstrip_Forall.
Qed.

Lemma strip_length s : (length (strip s) <= length s)%nat.
Proof.
  unfold strip, rstrip. rewrite length_rev.
  etransitivity; [apply lstrip_length|]. rewrite length_rev.
  apply lstrip_length.
Qed.

Lemma collapse_from_Forall (P : char -> Prop) b s :
  P SPACE -> Forall P s -> Forall P (collapse_from b s).
Proof.
  intros Hsp H. revert b. induction H as [|c r Hc Hr IH]; intros b; simpl; [done|].
  destruct (isspace c); [destruct b|]; auto.
Qed.

Lemma remove_special_Forall text :
  Forall (fun c => is_forbidden c = false) (remove_special text).
Proof.
  apply Forall_forall. intros c Hc. unfold remove_special in Hc.
  apply list_elem_of_filter in Hc as [Hc _]. by destruct (is_forbidden c).
Qed.

End StringFacts.

(** Every character of [Untitled] is allowed in a file name. *)
Lemma Untitled_clean : Forall (fun c => is_forbidden c = false) Untitled.
Proof. repeat constructor. Qed.

(** C3. Sanitization safety: for every input string the result of
    [sanitize_filename] with its default bound holds none of the characters
    less-than, greater-than, colon, double quote, slash, backslash, bar,
    question mark, star; it is at most 50 characters long; and it is never
    empty. *)
Theorem sanitize_filename_safe (text : pystr) :
  Forall (fun c => is_forbidden c = false) (sanitize text)
  /\ (length (sanitize text) <= 50)%nat
  /\ sanitize text <> [].
Proof.
  unfold sanitize, sanitize_filename.
  destruct (truthy text); simpl; [|by split_and!; [apply Untitled_clean|simpl; lia|]].
  set (s1 := strip (collapse_spaces (remove_special text))).
  assert (Hs1 : Forall (fun c => is_forbidden c = false) s1).
  { apply strip_Forall, collapse_from_Forall; [done|apply remove_special_Forall]. }
  destruct (truthy s1) eqn:Ht1; simpl; [|by split_and!; [apply Untitled_clean|simpl; lia|]].
  set (s2 := if (50 <? length s1)%nat then _ else s1).
  assert (Hs2 : Forall (fun c => is_forbidden c = false) s2 /\ (length s2 <= 50)%nat).
  { subst s2. destruct (50 <? length s1)%nat eqn:Hlen.
    - set (tr := take 50 s1).
      assert (Htr : Forall (fun c => is_forbidden c = false) tr) by by apply Forall_take.
      assert (Hl : (length tr <= 50)%nat) by (subst tr; rewrite length_take; lia).
      destruct (20 <? rfind SPACE tr)%Z.
      + split; [by apply strip_Forall, Forall_take|].
        etransitivity; [apply strip_length|]. rewrite length_take. lia.
      + split; [by apply strip_Forall|].
        etransitivity; [apply strip_length|]. done.
    - apply Nat.ltb_ge in Hlen. done. }
  destruct Hs2 as [Hc Hl].
  destruct (truthy s2) eqn:Ht2.
  - split_and!; [done|done|]. by destruct s2.
  - split_and!; [apply Untitled_clean|simpl; lia|done].
Qed.

(** ** File names *)

Section FilenameFacts.

Context `{rt : PyRuntime}.

Lemma generate_filename_shape (e : entry) :
  generate_filename e
  = filename_stem e ++ [SPACE; LPAREN] ++ take 8 (get_or (uuid e) UNKNOWN) ++ DOT_MD.
Proof.
  unfold generate_filename, filename_stem. cbv zeta.
  rewrite <- !app_assoc. reflexivity.
Qed.

(** C5. Filename suffix stability: the file name of an entry with
    identifier [u] ends with a space, an opening parenthesis, the first 8
    characters of [u] and [).md]; two entries with the same identifier,
    whatever their texts and other fields, get the same suffix; and an
    identifier shorter than 8 characters stands there in full, with no
    padding. *)
Theorem filename_suffix_stable (e1 e2 : entry) (u : pystr) :
  uuid e1 = Some u -> uuid e2 = Some u ->
  generate_filename e1 = filename_stem e1 ++ [SPACE; LPAREN] ++ take 8 u ++ DOT_MD
  /\ generate_filename e2 = filename_stem e2 ++ [SPACE; LPAREN] ++ take 8 u ++ DOT_MD
  /\ length (take 8 u) = Nat.min 8 (length u)
  /\ ((length u < 8)%nat -> take 8 u = u).
Proof.
  intros H1 H2. rewrite !generate_filename_shape, H1, H2. simpl get_or.
  split_and!; [done|done|apply length_take|].
  intros Hlen. apply take_ge. lia.
Qed.

End FilenameFacts.

(** ** Daylight saving time *)

Section DstFacts.

Local Open Scope Z_scope.

(** The calendar repeats after 400 years, which are 146097 days. *)
Lemma is_leap_shift (y q : Z) : is_leap (y + 400 * q) = is_leap y.
Proof.
  unfold is_leap.
  replace ((y + 400 * q) mod 4) with (y mod 4)
    by (symmetry; replace (y + 400 * q) with (y + (100 * q) * 4) by lia;
        apply Z.mod_add; lia).
  replace ((y + 400 * q) mod 100) with (y mod 100)
    by (symmetry; replace (y + 400 * q) with (y + (4 * q) * 100) by lia;
        apply Z.mod_add; lia).
  replace ((y + 400 * q) mod 400) with (y mod 400)
    by (symmetry; replace (y + 400 * q) with (y + q * 400) by lia;
        apply Z.mod_add; lia).
  reflexivity.
Qed.

Lemma ymd2ord_shift (y m d q : Z) :
  ymd2ord (y + 400 * q) m d = ymd2ord y m d + 146097 * q.
Proof.
  unfold ymd2ord, days_before_year, days_before_month. cbv zeta.
  rewrite is_leap_shift.
  replace ((y + 400 * q - 1) / 4) with ((y - 1) / 4 + 100 * q)
    by (symmetry; replace (y + 400 * q - 1) with (y - 1 + (100 * q) * 4) by lia;
        apply Z.div_add; lia).
  replace ((y + 400 * q - 1) / 100) with ((y - 1) / 100 + 4 * q)
    by (symmetry; replace (y + 400 * q - 1) with (y - 1 + (4 * q) * 100) by lia;
        apply Z.div_add; lia).
  replace ((y + 400 * q - 1) / 400) with ((y - 1) / 400 + q)
    by (symmetry; replace (y + 400 * q - 1) with (y - 1 + q * 400) by lia;
        apply Z.div_add; lia).
  lia.
Qed.

Lemma ord2ymd_shift (n q : Z) :
  ord2ymd (n + 146097 * q)
  = match ord2ymd n with (y, m, d) => (y + 400 * q, m, d) end.
Proof.
  unfold ord2ymd. cbv zeta.
  replace ((n + 146097 * q - 1) / 146097) with ((n - 1) / 146097 + q)
    by (symmetry; replace (n + 146097 * q - 1) with (n - 1 + q * 146097) by lia;
        apply Z.div_add; lia).
  replace ((n + 146097 * q - 1) mod 146097) with ((n - 1) mod 146097)
    by (symmetry; replace (n + 146097 * q - 1) with (n - 1 + q * 146097) by lia;
        apply Z.mod_add; lia).
  set (r := (n - 1) mod 146097).
  set (n100 := r / 36524). set (r1 := r mod 36524).
  set (n4 := r1 / 1461). set (r2 := r1 mod 1461).
  set (n1 := r2 / 365). set (r3 := r2 mod 365).
  destruct ((n1 =? 4) || (n100 =? 4)); [f_equal; f_equal; lia|].
  set (mm := Z.shiftr (r3 + 50) 5).
  set (leap := (n1 =? 3) && (negb (n4 =? 24) || (n100 =? 3))).
  destruct (r3 <? _); f_equal; f_equal; lia.
Qed.

Lemma all_from_spec (fuel : nat) (x : Z) (f : Z -> bool) :
  all_from fuel x f = true ->
  forall z, x <= z < x + Z.of_nat fuel -> f z = true.
Proof.
  revert x. induction fuel as [|k IH]; intros x H z Hz; [lia|].
  simpl in H. apply andb_true_iff in H as [Hx Hk].
  destruct (Z.eq_dec z x) as [->|Hne]; [done|].
  apply (IH (x + 1) Hk). lia.
Qed.

Lemma month_starts_checked :
  all_from 400 1 (fun y => month_start_ok 3 14 y && month_start_ok 11 7 y) = true.
Proof. vm_compute. reflexivity. Qed.

Lemma ord2ymd_month_start_400 (m : Z) (kmax : nat) (y k : Z) :
  month_start_ok m kmax y = true -> 0 <= k < Z.of_nat kmax ->
  ord2ymd (ymd2ord y m 1 + k) = (y, m, 1 + k).
Proof.
  intros Hok Hk. unfold month_start_ok in Hok.
  pose proof (all_from_spec _ _ _ Hok k ltac:(lia)) as H. cbv beta in H.
  destruct (ord2ymd (ymd2ord y m 1 + k)) as [[y' m'] d'].
  repeat (apply andb_true_iff in H as [H ?]).
  repeat f_equal; lia.
Qed.

(** The same for every year, by the period of 400 years. *)
Lemma ord2ymd_month_start (y k : Z) :
  (0 <= k < 14 -> ord2ymd (ymd2ord y 3 1 + k) = (y, 3, 1 + k))
  /\ (0 <= k < 7 -> ord2ymd (ymd2ord y 11 1 + k) = (y, 11, 1 + k)).
Proof.
  set (q := (y - 1) / 400). set (y0 := (y - 1) mod 400 + 1).
  assert (Hy : y = y0 + 400 * q).
  { subst y0 q. pose proof (Z.div_mod (y - 1) 400). lia. }
  assert (Hy0 : 1 <= y0 < 1 + Z.of_nat 400).
  { subst y0. pose proof (Z.mod_pos_bound (y - 1) 400). lia. }
  pose proof (all_from_spec _ _ _ month_starts_checked y0 Hy0) as H.
  cbv beta in H. apply andb_true_iff in H as [H3 H11].
  rewrite Hy, !ymd2ord_shift.
  split; intros Hk.
  - replace (ymd2ord y0 3 1 + 146097 * q + k)
      with (ymd2ord y0 3 1 + k + 146097 * q) by lia.
    rewrite ord2ymd_shift, (ord2ymd_month_start_400 3 14 y0 k H3) by lia.
    reflexivity.
  - replace (ymd2ord y0 11 1 + 146097 * q + k)
      with (ymd2ord y0 11 1 + k + 146097 * q) by lia.
    rewrite ord2ymd_shift, (ord2ymd_month_start_400 11 7 y0 k H11) by lia.
    reflexivity.
Qed.

Lemma ymd2ord_bounds (y m d : Z) :
  1 <= y <= 9999 -> 1 <= m <= 11 -> 1 <= d <= 28 ->
  0 < ymd2ord y m d <= MAXORDINAL.
Proof.
  intros Hy Hm Hd. unfold ymd2ord, days_before_year, days_before_month, MAXORDINAL.
  cbv zeta.
  assert (0 <= DAYS_BEFORE_MONTH m <= 304).
  { assert (Hc : m = 1 \/ m = 2 \/ m = 3 \/ m = 4 \/ m = 5 \/ m = 6 \/ m = 7
                 \/ m = 8 \/ m = 9 \/ m = 10 \/ m = 11) by lia.
    repeat (destruct Hc as [->|Hc]; [cbv; split; discriminate|]).
    subst m. cbv; split; discriminate. }
  destruct ((2 <? m) && is_leap y); Z.div_mod_to_equations; lia.
Qed.

Lemma add_days_month_start (y m k : Z) :
  1 <= y <= 9999 -> 1 <= m <= 11 -> 0 <= k <= 27 ->
  ord2ymd (ymd2ord y m 1 + k) = (y, m, 1 + k) ->
  add_days (first_of_month y m) k = Some (mk_datetime y m (1 + k) 0 0 0 0 UTC_TZ).
Proof.
  intros Hy Hm Hk Hymd.
  assert (Hb : 0 < ymd2ord y m (1 + k) <= MAXORDINAL) by (apply ymd2ord_bounds; lia).
  assert (He : ymd2ord y m (1 + k) = ymd2ord y m 1 + k) by (unfold ymd2ord; lia).
  rewrite He in Hb.
  unfold add_days, add_seconds, first_of_month.
  cbn [year month day hour minute second microsecond tzinfo].
  replace (ymd2ord y m 1 * 86400 + 0 * 3600 + 0 * 60 + 0 + k * 86400)
    with ((ymd2ord y m 1 + k) * 86400) by lia.
  rewrite Z.div_mul, Z.mod_mul by lia.
  destruct (0 <? _) eqn:H1; [|lia]. destruct (_ <=? MAXORDINAL) eqn:H2; [|lia].
  cbn [andb]. rewrite Hymd. reflexivity.
Qed.

Ltac case_ltb :=
  repeat match goal with
         | |- context [?a <? ?b] => destruct (Z.ltb_spec a b)
         end.

(** Comparing with midnight of day [d] of month [m] of the same year. *)
Lemma dt_leb_midnight (dt : datetime) (m d : Z) (tz tz' : option Z) :
  valid_time dt ->
  dt_leb (mk_datetime (year dt) m d 0 0 0 0 tz) (replace_tzinfo dt tz') = true
  <-> on_or_after dt m d.
Proof.
  intros (Hh & Hm & Hs & Hu). unfold on_or_after, dt_leb, dt_key, replace_tzinfo.
  cbn [year month day hour minute second microsecond lex_leb].
  case_ltb; split; intros; try done; try lia.
Qed.

Lemma dt_ltb_midnight (dt : datetime) (m d : Z) (tz tz' : option Z) :
  valid_time dt ->
  dt_ltb (replace_tzinfo dt tz') (mk_datetime (year dt) m d 0 0 0 0 tz) = true
  <-> strictly_before dt m d.
Proof.
  intros (Hh & Hm & Hs & Hu).
  unfold strictly_before, dt_ltb, dt_leb, dt_key, replace_tzinfo.
  cbn [year month day hour minute second microsecond lex_leb].
  case_ltb; cbn [negb]; split; intros; try done; try lia.
Qed.

Lemma weekday_next_sunday (y m : Z) :
  weekday y m (1 + (6 - weekday y m 1) mod 7) = SUNDAY
  /\ weekday y m (1 + ((6 - weekday y m 1) mod 7 + 7)) = SUNDAY
  /\ 0 <= (6 - weekday y m 1) mod 7 < 7.
Proof.
  unfold weekday, SUNDAY, ymd2ord.
  set (o := days_before_year y + days_before_month y m).
  Z.div_mod_to_equations. lia.
Qed.

(** What [is_dst] computes: the window opens at midnight before the second
    Sunday of March and closes at midnight before the first Sunday of
    November. *)
Lemma is_dst_spec (dt : datetime) :
  1 <= year dt <= 9999 -> valid_time dt ->
  exists d1 d2 b,
    second_sunday_of_march (year dt) d1
    /\ first_sunday_of_november (year dt) d2
    /\ is_dst dt = Some b
    /\ (b = true <-> on_or_after dt 3 d1 /\ strictly_before dt 11 d2).
Proof.
  intros Hy Hv. set (y := year dt) in *.
  destruct (weekday_next_sunday y 3) as (_ & Hs3 & Hr3).
  destruct (weekday_next_sunday y 11) as (Hs11 & _ & Hr11).
  set (k3 := (6 - weekday y 3 1) mod 7) in *.
  set (k11 := (6 - weekday y 11 1) mod 7) in *.
  exists (1 + (k3 + 7)), (1 + k11).
  eexists. split; [split; [lia|done]|]. split; [split; [lia|done]|].
  unfold is_dst. fold y. cbv zeta. fold k3 k11.
  rewrite (add_days_month_start y 3 (k3 + 7)); try lia;
    [|apply (ord2ymd_month_start y (k3 + 7)); lia].
  rewrite (add_days_month_start y 11 k11); try lia;
    [|apply (ord2ymd_month_start y k11); lia].
  split; [reflexivity|].
  rewrite andb_true_iff. subst y.
  rewrite dt_leb_midnight, dt_ltb_midnight by done. reflexivity.
Qed.

Lemma dict_get_absent {V} (d : list (pystr * V)) (key : pystr) (default : V) :
  dict_has d key = false -> dict_get d key default = default.
Proof.
  induction d as [|[k v] rest IH]; simpl; [done|].
  intros H. apply orb_false_iff in H as [Hk Hrest].
  rewrite Hk. by apply IH.
Qed.

(** C6. Time zone conversion policy: for every [datetime] the daylight
    saving determination holds exactly from the second Sunday of March (that
    day included, from midnight on) up to the first Sunday of November (that
    day excluded), both taken in the year of the value; and a time zone name
    that is in neither table gets the offset of -6 hours, inside the window
    and outside it. *)
Theorem dst_window_and_default_offset (dt : datetime) :
  1 <= year dt <= 9999 -> valid_time dt ->
  exists d1 d2 b,
    second_sunday_of_march (year dt) d1
    /\ first_sunday_of_november (year dt) d2
    /\ is_dst dt = Some b
    /\ (b = true <-> on_or_after dt 3 d1 /\ strictly_before dt 11 d2)
    /\ forall timezone_str,
         dict_has TIMEZONE_OFFSETS_STD timezone_str = false ->
         dict_has TIMEZONE_OFFSETS_DST timezone_str = false ->
         get_timezone_offset timezone_str dt = Some (-6).
Proof.
  intros Hy Hv. destruct (is_dst_spec dt Hy Hv) as (d1 & d2 & b & H1 & H2 & Hb & Hw).
  exists d1, d2, b. split_and!; try done.
  intros tz Hstd Hdst. unfold get_timezone_offset. rewrite Hb.
  destruct b; f_equal; by apply dict_get_absent.
Qed.

(** The reading of C6 that takes the first Sunday of November into the
    window fails on that day: the day is on or after the second Sunday of
    March and on or before the first Sunday of November, and [is_dst] is
    false. *)
Lemma dst_window_excludes_first_november_sunday :
  second_sunday_of_march 2023 12
  /\ first_sunday_of_november 2023 5
  /\ on_or_after first_november_sunday_2023 3 12
  /\ on_or_before first_november_sunday_2023 11 5
  /\ is_dst first_november_sunday_2023 = Some false.
Proof.
  unfold second_sunday_of_march, first_sunday_of_november, on_or_after,
    on_or_before, SUNDAY.
  cbn [month day first_november_sunday_2023].
  split_and!; try lia; try reflexivity.
Qed.

(** The window and the default offset at noon of the first of July 2024. *)
Lemma dst_window_and_default_offset_witness :
  exists d1 d2 b,
    second_sunday_of_march 2024 d1
    /\ first_sunday_of_november 2024 d2
    /\ is_dst noon_july_2024 = Some b
    /\ (b = true <-> on_or_after noon_july_2024 3 d1
                     /\ strictly_before noon_july_2024 11 d2)
    /\ forall timezone_str,
         dict_has TIMEZONE_OFFSETS_STD timezone_str = false ->
         dict_has TIMEZONE_OFFSETS_DST timezone_str = false ->
         get_timezone_offset timezone_str noon_july_2024 = Some (-6).
Proof.
  apply (dst_window_and_default_offset noon_july_2024).
  - simpl. lia.
  - unfold valid_time. simpl. lia.
Defined.

End DstFacts.

(** ** Image links *)

Section ImageFacts.

Context `{rt : PyRuntime}.

Implicit Types (s t alt pre post identifier : pystr) (c : char).

Lemma char_eqb_eq c d : char_eqb c d = true <-> c = d.
Proof. apply N.eqb_eq. Qed.

Lemma char_eqb_refl c : char_eqb c c = true.
Proof. apply N.eqb_refl. Qed.

Lemma mem_char_cons c d s :
  mem_char c (d :: s) = false <-> c <> d /\ mem_char c s = false.
Proof.
  unfold mem_char. simpl. rewrite orb_false_iff.
  split; intros [H1 H2]; split; try done.
  - intros ->. by rewrite char_eqb_refl in H1.
  - destruct (char_eqb c d) eqn:E; [|done]. by apply char_eqb_eq in E.
Qed.


Lemma startswith_app p s : startswith p (p ++ s) = true.
Proof. induction p as [|x p IH]; simpl; [done|]. by rewrite char_eqb_refl. Qed.

Lemma span_hex_run identifier c s :
  forallb is_hex identifier = true -> is_hex c = false ->
  span_hex (identifier ++ c :: s) = (identifier, c :: s).
Proof.
  intros Hid Hc. induction identifier as [|x r IH]; simpl.
  - by rewrite Hc.
  - simpl in Hid. apply andb_true_iff in Hid as [Hx Hr].
    by rewrite Hx, (IH Hr).
Qed.

Lemma match_target_token identifier post :
  forallb is_hex identifier = true ->
  match_target (MOMENT_TARGET ++ identifier ++ RPAREN :: post)
  = Some (identifier, post).
Proof.
  intros Hid. unfold match_target. rewrite startswith_app.
  rewrite drop_app_length, (span_hex_run identifier RPAREN post Hid eq_refl).
  reflexivity.
Qed.

Lemma match_target_other c s : c <> RBRACKET -> match_target (c :: s) = None.
Proof.
  intros Hc. unfold match_target, MOMENT_TARGET. cbn [startswith].
  destruct (char_eqb 93%N c) eqn:E; [|done].
  apply char_eqb_eq in E. by subst c.
Qed.

Lemma match_target_nil : match_target [] = None.
Proof. reflexivity. Qed.

(** The lazy run passes over text without closing bracket and newline. *)
Lemma match_alt_skip alt s :
  mem_char RBRACKET alt = false -> mem_char NL alt = false ->
  match_alt (alt ++ s) = match_alt s.
Proof.
  induction alt as [|c r IH]; intros Hb Hn; [done|].
  apply mem_char_cons in Hb as [Hb1 Hb2]. apply mem_char_cons in Hn as [Hn1 Hn2].
  cbn [app match_alt]. rewrite match_target_other by done.
  destruct (char_eqb c NL) eqn:E; [apply char_eqb_eq in E; by subst c|].
  by apply IH.
Qed.

Lemma match_alt_here s r : match_target s = Some r -> match_alt s = Some r.
Proof.
  intros H. destruct s; [discriminate H|]. cbn [match_alt]. by rewrite H.
Qed.

Lemma match_image_token alt identifier post :
  mem_char RBRACKET alt = false -> mem_char NL alt = false ->
  forallb is_hex identifier = true ->
  match_image (image_token alt identifier ++ post) = Some (identifier, post).
Proof.
  intros Hb Hn Hid. unfold match_image, image_token.
  rewrite <- !app_assoc, startswith_app.
  change (drop 2 (BANG_BRACKET ++ ?x)) with x.
  rewrite match_alt_skip by done. apply match_alt_here.
  cbn [app]. by apply match_target_token.
Qed.

(** Passing over the rest of a match. *)
Lemma sub_images_skip (f : pystr -> pystr) s t :
  sub_images f (length s) (s ++ t) = sub_images f 0 t.
Proof.
  induction s as [|c r IH]; [by destruct t|]. simpl. apply IH.
Qed.

Lemma sub_images_match (f : pystr -> pystr) c s identifier post :
  match_image (c :: s ++ post) = Some (identifier, post) ->
  sub_images f 0 (c :: s ++ post) = f identifier ++ sub_images f 0 post.
Proof.
  intros H. cbn [sub_images]. rewrite H.
  rewrite length_app, Nat.add_sub. by rewrite sub_images_skip.
Qed.

Lemma match_image_other c s : c <> BANG -> match_image (c :: s) = None.
Proof.
  intros Hc. unfold match_image, BANG_BRACKET. cbn [startswith].
  destruct (char_eqb 33%N c) eqn:E; [|done].
  apply char_eqb_eq in E. by subst c.
Qed.

Lemma match_image_bang_other c s : c <> 91%N -> match_image (BANG :: c :: s) = None.
Proof.
  intros Hc. unfold match_image, BANG_BRACKET. cbn [startswith].
  destruct (char_eqb 91%N c) eqn:E; [|by rewrite andb_false_r].
  apply char_eqb_eq in E. by subst c.
Qed.

(** Text without bang-bracket before a bang is copied. *)
Lemma sub_images_pre (f : pystr -> pystr) pre s :
  has_infix BANG_BRACKET pre = false ->
  sub_images f 0 (pre ++ BANG :: s) = pre ++ sub_images f 0 (BANG :: s).
Proof.
  induction pre as [|c r IH]; intros H; [done|].
  cbn [has_infix] in H. apply orb_false_iff in H as [H1 H2].
  assert (Hm : match_image ((c :: r) ++ BANG :: s) = None).
  { destruct (N.eq_dec c BANG) as [->|Hc]; [|by apply match_image_other].
    destruct r as [|d r].
    - by apply match_image_bang_other.
    - apply match_image_bang_other. intros ->. done. }
  change ((c :: r) ++ BANG :: s) with (c :: (r ++ BANG :: s)) in *.
  cbn [sub_images]. rewrite Hm. cbn [app]. f_equal. by apply IH.
Qed.

Lemma convert_image_links_sub s (photos_info : list photo) :
  convert_image_links s photos_info
  = sub_images (replace_image (build_ext_map photos_info)) 0 s.
Proof. unfold convert_image_links. by destruct s. Qed.

(** Rewriting one token in its context. *)
Lemma convert_token pre alt identifier post (photos_info : list photo) :
  has_infix BANG_BRACKET pre = false ->
  mem_char RBRACKET alt = false -> mem_char NL alt = false ->
  forallb is_hex identifier = true ->
  convert_image_links (pre ++ image_token alt identifier ++ post) photos_info
  = pre ++ replace_image (build_ext_map photos_info) identifier
        ++ convert_image_links post photos_info.
Proof.
  intros Hpre Hb Hn Hid. rewrite !convert_image_links_sub.
  pose proof (match_image_token alt identifier post Hb Hn Hid) as Hm.
  unfold image_token in *. cbn [BANG_BRACKET app] in *.
  change (33%N) with BANG in *.
  rewrite sub_images_pre by done. f_equal.
  rewrite <- !app_assoc in *. cbn [app] in *.
  set (mid := alt ++ MOMENT_TARGET ++ identifier ++ [RPAREN]) in *.
  change (91%N :: alt ++ MOMENT_TARGET ++ identifier ++ RPAREN :: post)
    with (91%N :: alt ++ MOMENT_TARGET ++ identifier ++ [RPAREN] ++ post) in *.
  replace (91%N :: alt ++ MOMENT_TARGET ++ identifier ++ [RPAREN] ++ post)
    with ((91%N :: mid) ++ post) in *
    by (subst mid; cbn [app]; by rewrite <- !app_assoc).
  by apply sub_images_match.
Qed.

Lemma build_ext_map_absent (photos_info : list photo) identifier :
  Forall (fun ph => get_or (photo_identifier ph) [] <> identifier) photos_info ->
  build_ext_map photos_info !! identifier = None.
Proof.
  unfold build_ext_map. intros H.
  rewrite <- (lookup_empty (M := gmap pystr) (A := pystr) identifier).
  generalize (∅ : gmap pystr pystr).
  induction H as [|ph rest Hph Hrest IH]; intros m; [done|].
  cbn [fold_left]. rewrite IH. by apply lookup_insert_ne.
Qed.

Lemma normalize_extension_jpg : normalize_extension JPG = JPEG.
Proof.
  unfold normalize_extension. cbn [truthy JPG].
  rewrite str_lower_ascii by reflexivity. reflexivity.
Qed.

(** C4. Resource link rewriting: the token with identifier [AB12] and a
    resource list that declares [AB12] with type [jpg] gives the wiki link to
    [photos/AB12.jpeg]; a token whose identifier is empty is deleted, with
    the text before and after it left as the rewriting leaves it; and a
    token whose identifier is in no resource of the list is linked with the
    extension [jpeg].  The text before the token has no bang followed by a
    bracket, and the alternative text no closing bracket and no newline. *)
Theorem image_links_rewritten (md5 : option pystr) (photos_info : list photo)
  (pre alt identifier post : pystr) :
  has_infix BANG_BRACKET pre = false ->
  mem_char RBRACKET alt = false -> mem_char NL alt = false ->
  forallb is_hex identifier = true -> identifier <> [] ->
  Forall (fun ph => get_or (photo_identifier ph) [] <> identifier) photos_info ->
  convert_image_links (image_token [] (str "AB12"))
    [mk_photo (Some (str "AB12")) md5 (Some JPG)]
  = wiki_link (str "AB12") JPEG
  /\ convert_image_links (pre ++ image_token alt [] ++ post) photos_info
     = pre ++ convert_image_links post photos_info
  /\ convert_image_links (pre ++ image_token alt identifier ++ post) photos_info
     = pre ++ wiki_link identifier JPEG ++ convert_image_links post photos_info.
Proof.
  intros Hpre Hb Hn Hid Hne Habs. split_and!.
  - pose proof (convert_token [] [] (str "AB12") []
                  [mk_photo (Some (str "AB12")) md5 (Some JPG)]
                  eq_refl eq_refl eq_refl eq_refl) as H.
    cbn [app] in H. rewrite app_nil_r in H. rewrite H.
    unfold replace_image, build_ext_map. cbn [fold_left photo_identifier photo_type get_or].
    rewrite lookup_insert_eq, normalize_extension_jpg. cbn [default truthy negb].
    unfold convert_image_links. cbn [truthy negb]. by rewrite app_nil_r.
  - by rewrite (convert_token pre alt [] post photos_info).
  - rewrite (convert_token pre alt identifier post photos_info) by done.
    unfold replace_image. rewrite build_ext_map_absent by done.
    destruct identifier; [done|]. cbn [truthy negb default].
    unfold wiki_link. by rewrite <- !app_assoc.
Qed.

(** ** Tokens that are not rewritten *)









End ImageFacts.

(** The rewriting of a token inside a line, with and without its photo in
    the list. *)
Lemma image_links_rewritten_witness :
  convert_image_links (image_token [] (str "AB12"))
    [mk_photo (Some (str "AB12")) None (Some JPG)]
  = wiki_link (str "AB12") JPEG
  /\ convert_image_links
       (str "Lunch " ++ image_token (str "pic") [] ++ str " done") [sample_photo]
     = str "Lunch " ++ convert_image_links (str " done") [sample_photo]
  /\ convert_image_links
       (str "Lunch " ++ image_token (str "pic") (str "CD34") ++ str " done")
       [sample_photo]
     = str "Lunch " ++ wiki_link (str "CD34") JPEG
         ++ convert_image_links (str " done") [sample_photo].
Proof.
  apply (image_links_rewritten None [sample_photo] (str "Lunch ") (str "pic")
           (str "CD34") (str " done")); try reflexivity.
  - discriminate.
  - repeat constructor; discriminate.
Defined.



(** ** The run: exit status and preview mode *)

Section RunFacts.

Context `{rt : PyRuntime}.

Implicit Types (a : args) (e : entry) (w : world) (st : run_state) (s : stats).

Lemma process_entries_loop a e entries w :
  process_entries a (Parsed (Some (e :: entries))) w
  = let st := loop_state a (e :: entries) w in
    let s := rs_stats st in
    mk_result (if (errors s =? 0)%nat then 0%Z else 1%Z) (Some s)
      (rs_out st ++ [MsgSummary s]
       ++ (if negb (dry_run a) then [MsgLogWritten] else []))
      (if negb (dry_run a) then write_log a s (rs_world st) else rs_world st).
Proof.
  unfold process_entries, loop_state. cbn [get_or].
  destruct (negb (dry_run a)); cbn zeta; [|by rewrite app_nil_r].
  by rewrite <- app_assoc.
Qed.

(** C7. Exit status: the run returns 1 when the input file is missing or
    is not valid JSON, 0 when the input has no entry (the key is absent or
    the list is empty), and otherwise prints the counters of the loop and
    returns 0 exactly when the error counter is zero, and 1 exactly when it
    is not. *)
Theorem exit_status_spec a (inp : input_file) w :
  match inp with
  | Missing | Unparseable =>
      exit_status (process_entries a inp w) = 1%Z
      /\ summary (process_entries a inp w) = None
  | Parsed None | Parsed (Some []) =>
      exit_status (process_entries a inp w) = 0%Z
      /\ summary (process_entries a inp w) = None
  | Parsed (Some entries) =>
      summary (process_entries a inp w) = Some (rs_stats (loop_state a entries w))
      /\ (exit_status (process_entries a inp w) = 0%Z
          <-> errors (rs_stats (loop_state a entries w)) = 0%nat)
      /\ (exit_status (process_entries a inp w) = 1%Z
          <-> errors (rs_stats (loop_state a entries w)) <> 0%nat)
  end.
Proof.
  destruct inp as [| |[[|e entries]|]]; try done.
  rewrite process_entries_loop. cbn zeta. cbn [summary exit_status].
  destruct (Nat.eqb_spec (errors (rs_stats (loop_state a (e :: entries) w))) 0);
    split_and!; try done; split; intros; try done; lia.
Qed.







End RunFacts.

(** ** Reconciliation *)

Section KeyFacts.

Implicit Types (s t p k n : pystr) (c : char).


Lemma startswith_spec p s : startswith p s = true <-> exists t, s = p ++ t.
Proof.
  revert s. induction p as [|x p IH]; intros s; simpl.
  - split; [by exists s|done].
  - destruct s as [|y s]; [split; [done|by intros [t Ht]]|].
    rewrite andb_true_iff, IH, char_eqb_eq. split.
    + intros [-> [t ->]]. by exists t.
    + intros [t [= -> ->]]. split; [done|by exists t].
Qed.

Lemma endswith_spec p s : endswith p s = true <-> exists t, s = t ++ p.
Proof.
  unfold endswith. rewrite startswith_spec. split.
  - intros [t Ht]. exists (rev t).
    rewrite <- (rev_involutive s), Ht, rev_app_distr, rev_involutive. done.
  - intros [t ->]. exists (rev t). by rewrite rev_app_distr.
Qed.




Lemma glob_plain_app s t : glob_plain (s ++ t) = glob_plain s && glob_plain t.
Proof. unfold glob_plain. apply forallb_app. Qed.

Lemma glob_plain_key_suffix k : glob_plain k = true -> glob_plain (key_suffix k) = true.
Proof.
  intros H. unfold key_suffix. rewrite !glob_plain_app, H. reflexivity.
Qed.

End KeyFacts.

Section LookupFacts.

Context `{rt : PyRuntime}.

Implicit Types (a : args) (e : entry) (w : world) (st : run_state) (k n g : pystr).

(** The file name of an entry with identifier matches the key of the
    entry. *)
Lemma own_filename_matches e :
  is_Some (uuid e) -> matches_key (entry_key e) (generate_filename e) = true.
Proof.
  intros [u Hu]. unfold matches_key, entry_key, key_suffix.
  rewrite endswith_spec, generate_filename_shape, Hu. cbn [get_or].
  exists (filename_stem e ++ [SPACE]). by rewrite <- !app_assoc.
Qed.


(** What the lookup returns for a key without wildcard. *)
Lemma find_existing_plain w (files : gmap pystr pystr) k :
  journal w = Some files -> glob_plain k = true ->
  exists r, find_existing_file w k = Done r
    /\ match r with
       | Some g => g ∈ dom files /\ matches_key k g = true
       | None => forall n, n ∈ dom files -> matches_key k n = false
       end.
Proof.
  intros Hj Hk. unfold find_existing_file. rewrite Hj.
  destruct (glob_star_plain (key_suffix k) (dom files)
              (glob_plain_key_suffix k Hk)) as (l & Hl & Hmem).
  change (glob_pattern k) with (STAR :: key_suffix k). rewrite Hl.
  exists (head l). split; [done|].
  destruct l as [|g l]; cbn [head].
  - intros n Hn. destruct (matches_key k n) eqn:E; [|done].
    assert (n ∈ @nil pystr) as Hin by (apply Hmem; by split).
    by apply elem_of_nil in Hin.
  - apply Hmem. by left.
Qed.

End LookupFacts.

(** ** Photos *)

Section PhotoFacts.

Context `{rt : PyRuntime}.

Implicit Types (a : args) (e : entry) (w : world) (ph : photo).






Lemma copy_photo_raised (verb : bool) ph w :
  copy_photo false verb ph w = Raised ->
  photo_source (photos_src w) ph <> None
  /\ file_exists (photos_out w) (photo_dest ph) = false.
Proof.
  unfold copy_photo. cbv zeta. fold (photo_source (photos_src w) ph).
  fold (photo_dest ph).
  destruct (photo_source (photos_src w) ph) as [source|]; [|done].
  destruct (file_exists (photos_out w) (photo_dest ph)); [done|]. done.
Qed.

(** The loop never touches the entry files, the log and the sources. *)
Lemma copy_photos_loop_frame (dry verb : bool) (phs : list photo) w w'
  (out : list line) (raised : bool) :
  copy_photos_loop dry verb phs w = (w', out, raised) ->
  journal w' = journal w /\ conversion_log w' = conversion_log w
  /\ photos_src w' = photos_src w.
Proof.
  revert w out. induction phs as [|ph rest IH]; intros w out; cbn [copy_photos_loop].
  - by intros [= <- _ _].
  - destruct (copy_photo dry verb ph w) as [[w1 o1]|] eqn:Hph;
      [|by intros [= <- _ _]].
    destruct (copy_photos_loop dry verb rest w1) as [[w2 o2] r2] eqn:Hrest.
    intros [= <- _ <-]. destruct (IH w1 o2 Hrest) as (Hj & Hl & Hs).
    assert (journal w1 = journal w /\ conversion_log w1 = conversion_log w
            /\ photos_src w1 = photos_src w) as (Hj1 & Hl1 & Hs1).
    { revert Hph. unfold copy_photo. cbv zeta.
      destruct (match first_existing _ _ with Some f => Some f | None => _ end);
        [|by intros [= <- _]].
      destruct (negb (file_exists _ _)); [|by intros [= <- _]].
      destruct dry; [by intros [= <- _]|].
      unfold copy_file. destruct (photos_src w !! _); [|done].
      destruct (write_file _ _ _); [|done]. by intros [= <- _]. }
    split_and!; congruence.
Qed.



End PhotoFacts.

(** ** One entry *)

Section EntryFacts.

Context `{rt : PyRuntime}.

Implicit Types (a : args) (e : entry) (w : world) (st : run_state) (s : stats)
  (k n g f : pystr) (files : gmap pystr pystr).

Lemma decide_entry_texted a e w :
  texted e = true ->
  decide_entry a e w
  = match find_existing_file w (entry_key e) with
    | Raised => LookupRaised
    | Done None => New
    | Done (Some g) =>
        if update a then
          if truthy_opt (extract_modified_date_from_file w g)
             && str_le (get_or (modifiedDate e) [])
                  (get_or (extract_modified_date_from_file w g) [])
          then Current g else Stale g
        else Blocked g
    end.
Proof. intros Ht. unfold decide_entry. fold (texted e). by rewrite Ht. Qed.

Lemma decide_entry_textless a e w : texted e = false -> decide_entry a e w = SkipNoText.
Proof. intros Ht. unfold decide_entry. fold (texted e). by rewrite Ht. Qed.

Lemma extract_modified_date_from_file_eq w files g (content : pystr) :
  journal w = Some files -> files !! g = Some content ->
  extract_modified_date_from_file w g = extract_modified_date content.
Proof. intros Hj Hg. unfold extract_modified_date_from_file. by rewrite Hj, Hg. Qed.

(** The counters after [write_entry]: the ones before, or one more error. *)
Lemma write_entry_stats a e f s w (out : list line) :
  rs_stats (write_entry a e f s w out) = s
  \/ rs_stats (write_entry a e f s w out) = bump_errors s.
Proof.
  unfold write_entry. destruct (negb (dry_run a)).
  - destruct (write_file _ _ _); [|by right].
    destruct (copy_photos _ _ _ _) as [[w' o'] [|]]; [by right|by left].
  - destruct (verbose a); [|by left].
    destruct (copy_photos _ _ _ _) as [[w' o'] [|]]; [by right|by left].
Qed.

(** The entries directory after [write_entry]. *)
Lemma write_entry_journal a e f s w (out : list line) :
  journal (rs_world (write_entry a e f s w out))
  = if dry_run a then journal w
    else match write_file (journal w) f (full_content e) with
         | Done j => j
         | Raised => journal w
         end.
Proof.
  unfold write_entry. destruct (dry_run a); cbn [negb].
  - destruct (verbose a); [|done]. unfold copy_photos.
    destruct (copy_photos_loop _ _ _ _) as [[w' o'] r] eqn:Hc.
    apply copy_photos_loop_frame in Hc as (Hj & _ & _). by destruct r.
  - destruct (write_file _ _ _) as [j|]; [|done]. unfold copy_photos.
    destruct (copy_photos_loop _ _ _ _) as [[w' o'] r] eqn:Hc.
    apply copy_photos_loop_frame in Hc as (Hj & _ & _). by destruct r.
Qed.



End EntryFacts.

(** ** A step of update mode *)

Section StepFacts.

Context `{rt : PyRuntime}.

Implicit Types (a : args) (e : entry) (w : world) (st : run_state) (s : stats)
  (k n g f : pystr) (files : gmap pystr pystr).

Lemma photos_grow_set_journal w w' (j : option (gmap pystr pystr)) :
  photos_grow (set_journal w j) w' -> photos_grow w w'.
Proof. done. Qed.



End StepFacts.

(** ** Two runs in update mode *)

Section TwoRuns.

Context `{rt : PyRuntime}.

Implicit Types (a : args) (e : entry) (w : world) (st : run_state) (s : stats)
  (k n g f : pystr) (files : gmap pystr pystr) (entries seen todo : list entry).





Lemma process_entry_textless a st e :
  texted e = false ->
  process_entry a st e
  = mk_run (bump_skipped (bump_total (rs_stats st))) (rs_world st)
      (rs_out st ++ say (verbose a) (MsgSkipNoText (uuid e))).
Proof. intros Ht. unfold process_entry. cbv zeta. by rewrite decide_entry_textless. Qed.











End TwoRuns.

(** ** Titles: what [sanitize_filename] and [extract_title] return *)

Section TidyFacts.

Implicit Types (s t : pystr) (c : char) (b : bool).

Lemma spaced_from_weaken b s : spaced_from b s = true -> spaced_from false s = true.
Proof.
  destruct s as [|c r]; [done|]. simpl. destruct (isspace c); [|done].
  destruct b; [by rewrite andb_false_r|done].
Qed.

Lemma spaced_from_app b s t : spaced_from b (s ++ t) = true -> spaced_from b s = true.
Proof.
  revert b. induction s as [|c r IH]; intros b; simpl; [done|].
  destruct (isspace c); [|apply IH].
  intros H. apply andb_true_iff in H as [H1 H2]. rewrite H1. by apply IH.
Qed.

Lemma spaced_from_suffix b s t :
  spaced_from b (s ++ t) = true -> spaced_from false t = true.
Proof.
  revert b. induction s as [|c r IH]; intros b; simpl; [apply spaced_from_weaken|].
  destruct (isspace c); [|apply IH].
  intros H. apply andb_true_iff in H as [_ H2]. by apply (IH true).
Qed.

Lemma spaced_from_Forall b s :
  spaced_from b s = true -> Forall (fun c => isspace c = true -> c = SPACE) s.
Proof.
  revert b. induction s as [|c r IH]; intros b; simpl; [done|].
  destruct (isspace c) eqn:E.
  - intros H. apply andb_true_iff in H as [H1 H2].
    apply andb_true_iff in H1 as [H1 _]. apply char_eqb_eq in H1.
    constructor; [done|by apply (IH true)].
  - intros H. constructor; [by rewrite E|by apply (IH false)].
Qed.

(** The second substitution leaves single spaces only, and leaves a text
    alone that has single spaces only. *)
Lemma collapse_from_spaced b s : spaced_from b (collapse_from b s) = true.
Proof.
  revert b. induction s as [|c r IH]; intros b; simpl; [done|].
  destruct (isspace c) eqn:E.
  - destruct b; [apply IH|]. simpl. by rewrite IH.
  - simpl. rewrite E. apply IH.
Qed.

Lemma collapse_from_fixed b s : spaced_from b s = true -> collapse_from b s = s.
Proof.
  revert b. induction s as [|c r IH]; intros b; simpl; [done|].
  destruct (isspace c) eqn:E.
  - intros H. apply andb_true_iff in H as [H1 H3].
    apply andb_true_iff in H1 as [H1 H2]. apply char_eqb_eq in H1. subst c.
    destruct b; [done|]. by rewrite IH.
  - intros H. by rewrite IH.
Qed.

Lemma lstrip_starts_clean s : starts_clean (lstrip s) = true.
Proof.
  induction s as [|c r IH]; simpl; [done|].
  destruct (isspace c) eqn:E; [done|]. simpl. by rewrite E.
Qed.

Lemma lstrip_fixed s : starts_clean s = true -> lstrip s = s.
Proof. destruct s as [|c r]; simpl; [done|]. by destruct (isspace c). Qed.

Lemma rstrip_prefix s : prefix (rstrip s) s.
Proof.
  destruct (lstrip_suffix (rev s)) as [k Hk]. exists (rev k). unfold rstrip.
  by rewrite <- rev_app_distr, <- Hk, rev_involutive.
Qed.

Lemma rstrip_fixed s : starts_clean (rev s) = true -> rstrip s = s.
Proof. intros H. unfold rstrip. by rewrite lstrip_fixed, rev_involutive. Qed.

Lemma rstrip_keeps_head s : starts_clean s = true -> starts_clean (rstrip s) = true.
Proof.
  destruct (rstrip_prefix s) as [k Hk]. destruct (rstrip s) as [|c r]; [done|].
  by rewrite Hk.
Qed.

Lemma strip_ends s :
  starts_clean (strip s) = true /\ starts_clean (rev (strip s)) = true.
Proof.
  unfold strip. split; [apply rstrip_keeps_head, lstrip_starts_clean|].
  unfold rstrip. rewrite rev_involutive. apply lstrip_starts_clean.
Qed.

Lemma strip_fixed s :
  starts_clean s = true -> starts_clean (rev s) = true -> strip s = s.
Proof. intros H1 H2. unfold strip. rewrite lstrip_fixed by done. by apply rstrip_fixed. Qed.

Lemma strip_spaced b s : spaced_from b s = true -> spaced_from false (strip s) = true.
Proof.
  intros H. destruct (lstrip_suffix s) as [k1 Hk1].
  destruct (rstrip_prefix (lstrip s)) as [k2 Hk2]. fold (strip s) in Hk2.
  rewrite Hk1 in H. apply spaced_from_suffix in H. rewrite Hk2 in H.
  by apply spaced_from_app in H.
Qed.

Lemma take_spaced b (n : nat) s :
  spaced_from b s = true -> spaced_from b (take n s) = true.
Proof. intros H. rewrite <- (take_drop n s) in H. by apply spaced_from_app in H. Qed.

Lemma strip_tidy b s : spaced_from b s = true -> tidy (strip s) = true.
Proof.
  intros H. unfold tidy. destruct (strip_ends s) as [-> ->].
  by rewrite (strip_spaced b).
Qed.

Lemma clean_Forall s : clean s = true <-> Forall (fun c => is_forbidden c = false) s.
Proof.
  unfold clean. rewrite forallb_forall, Forall_forall. split; intros H c Hc.
  - apply list_elem_of_In, H in Hc. by destruct (is_forbidden c).
  - apply list_elem_of_In, H in Hc. by rewrite Hc.
Qed.

Lemma remove_special_fixed s : clean s = true -> remove_special s = s.
Proof.
  unfold clean, remove_special, pystr. induction s as [|c r IH]; [done|].
  cbn [forallb]. intros H. apply andb_true_iff in H as [Hc Hr].
  rewrite filter_cons_True by done. by rewrite IH.
Qed.

(** What [sanitize_filename] returns: the fallback title, or a title that is
    not empty, clean, tidy and no longer than the bound. *)
Lemma sanitize_filename_shape text (max_length : nat) :
  sanitize_filename text max_length = Untitled
  \/ (sanitize_filename text max_length <> []
      /\ clean (sanitize_filename text max_length) = true
      /\ tidy (sanitize_filename text max_length) = true
      /\ (length (sanitize_filename text max_length) <= max_length)%nat).
Proof.
  unfold sanitize_filename.
  destruct (truthy text); cbn [negb]; [|by left].
  set (s0 := collapse_spaces (remove_special text)).
  assert (Hs0 : spaced_from false s0 = true /\ clean s0 = true).
  { split; [apply collapse_from_spaced|].
    apply clean_Forall, collapse_from_Forall; [done|apply remove_special_Forall]. }
  destruct Hs0 as [Hsp0 Hc0].
  set (s1 := strip s0).
  assert (Hs1 : spaced_from false s1 = true /\ clean s1 = true) .
  { split; [by apply (strip_spaced false)|].
    by apply clean_Forall, strip_Forall, clean_Forall. }
  destruct Hs1 as [Hsp1 Hc1].
  destruct (truthy s1) eqn:Ht1; cbn [negb]; [|by left].
  set (s2 := if (max_length <? length s1)%nat then _ else s1).
  assert (Hs2 : clean s2 = true /\ tidy s2 = true /\ (length s2 <= max_length)%nat).
  { subst s2. destruct (max_length <? length s1)%nat eqn:Hlen.
    - set (tr := take max_length s1).
      assert (Htr : spaced_from false tr = true /\ clean tr = true
                    /\ (length tr <= max_length)%nat).
      { subst tr. split_and!; [by apply take_spaced| |rewrite length_take; lia].
        by apply clean_Forall, Forall_take, clean_Forall. }
      destruct Htr as (Hsp & Hc & Hl).
      destruct (20 <? rfind SPACE tr)%Z.
      + split_and!.
        * by apply clean_Forall, strip_Forall, Forall_take, clean_Forall.
        * apply (strip_tidy false). by apply take_spaced.
        * etransitivity; [apply strip_length|]. rewrite length_take. lia.
      + split_and!.
        * by apply clean_Forall, strip_Forall, clean_Forall.
        * by apply (strip_tidy false).
        * etransitivity; [apply strip_length|]. done.
    - apply Nat.ltb_ge in Hlen. split_and!; [done| |done].
      subst s1. by apply (strip_tidy false). }
  destruct Hs2 as (Hc2 & Ht2 & Hl2).
  destruct (truthy s2) eqn:Htr; [right|by left].
  split_and!; try done. by destruct s2.
Qed.

Lemma sanitize_filename_fixed text (max_length : nat) :
  text <> [] -> clean text = true -> tidy text = true ->
  (length text <= max_length)%nat ->
  sanitize_filename text max_length = text.
Proof.
  intros Hne Hc Ht Hl. unfold tidy in Ht.
  apply andb_true_iff in Ht as [Ht H3]. apply andb_true_iff in Ht as [H1 H2].
  unfold sanitize_filename, collapse_spaces.
  assert (Htext : truthy text = true) by by destruct text.
  rewrite Htext. cbn [negb].
  rewrite remove_special_fixed, collapse_from_fixed, strip_fixed by done.
  rewrite Htext. cbn [negb].
  assert ((max_length <? length text)%nat = false) as -> by by apply Nat.ltb_ge.
  by rewrite Htext.
Qed.

(** X1. A text that is not empty, holds none of the characters
    [sanitize_filename] removes, has no white space but single spaces between
    its words, and is no longer than the bound, is returned as it is. *)
Theorem sanitize_filename_keeps_tidy text (max_length : nat) :
  text <> [] -> clean text = true -> tidy text = true ->
  (length text <= max_length)%nat ->
  sanitize_filename text max_length = text.
Proof. apply sanitize_filename_fixed. Qed.

(** X2. With a bound of 8 characters or more, among them the default of 50,
    sanitizing twice is sanitizing once. *)
Theorem sanitize_filename_idempotent text (max_length : nat) :
  (8 <= max_length)%nat ->
  sanitize_filename (sanitize_filename text max_length) max_length
  = sanitize_filename text max_length.
Proof.
  intros Hm.
  destruct (sanitize_filename_shape text max_length) as [->|(Hne & Hc & Ht & Hl)].
  - apply sanitize_filename_fixed; [done|reflexivity|reflexivity|simpl; lia].
  - by apply sanitize_filename_fixed.
Qed.

Lemma Untitled_shape :
  Untitled <> [] /\ clean Untitled = true /\ tidy Untitled = true
  /\ length Untitled = 8%nat.
Proof. by split_and!. Qed.

(** X3. Whatever the bound, the result of [sanitize_filename] has no white
    space at either end, and no white space inside but single spaces: no tab,
    no newline, no two spaces in a row. *)
Theorem sanitize_filename_tidy text (max_length : nat) :
  tidy (sanitize_filename text max_length) = true
  /\ Forall (fun c => isspace c = true -> c = SPACE)
       (sanitize_filename text max_length).
Proof.
  assert (H : tidy (sanitize_filename text max_length) = true).
  { destruct (sanitize_filename_shape text max_length) as [->|(_ & _ & Ht & _)];
      [reflexivity|done]. }
  split; [done|]. unfold tidy in H.
  apply andb_true_iff in H as [H _]. apply andb_true_iff in H as [H _].
  by apply (spaced_from_Forall false).
Qed.

(** A title: not empty, clean, tidy and of 50 characters at most. *)
Lemma sanitize_title text :
  sanitize text <> [] /\ clean (sanitize text) = true
  /\ tidy (sanitize text) = true /\ (length (sanitize text) <= 50)%nat.
Proof.
  unfold sanitize.
  destruct (sanitize_filename_shape text 50) as [->|H]; [|done].
  split_and!; try done. simpl. lia.
Qed.

Lemma extract_title_shape text :
  extract_title text <> [] /\ clean (extract_title text) = true
  /\ tidy (extract_title text) = true /\ (length (extract_title text) <= 50)%nat.
Proof.
  assert (HU : Untitled <> [] /\ clean Untitled = true /\ tidy Untitled = true
               /\ (length Untitled <= 50)%nat) by (split_and!; try done; simpl; lia).
  unfold extract_title. destruct (negb (truthy text)); [done|]. cbv zeta.
  set (fallback := match first_title_line _ with Some l => sanitize l | None => _ end).
  assert (Hf : fallback <> [] /\ clean fallback = true /\ tidy fallback = true
               /\ (length fallback <= 50)%nat).
  { subst fallback. destruct (first_title_line _); [apply sanitize_title|done]. }
  destruct (startswith [HASH] _); [|done].
  destruct (negb (is_image_only _)); [apply sanitize_title|done].
Qed.

(** X4. The title [extract_title] returns is never empty, holds none of the
    characters [sanitize_filename] removes, has no white space but single
    spaces between its words, and is at most 50 characters long, whatever the
    text: with or without header, made of images only, or empty. *)
Theorem extract_title_safe text :
  extract_title text <> []
  /\ Forall (fun c => is_forbidden c = false) (extract_title text)
  /\ tidy (extract_title text) = true
  /\ Forall (fun c => isspace c = true -> c = SPACE) (extract_title text)
  /\ (length (extract_title text) <= 50)%nat.
Proof.
  destruct (extract_title_shape text) as (Hne & Hc & Ht & Hl).
  split_and!; try done; [by apply clean_Forall|].
  unfold tidy in Ht. apply andb_true_iff in Ht as [Ht _].
  apply andb_true_iff in Ht as [Ht _]. by apply (spaced_from_Forall false).
Qed.

Lemma mem_char_app_orb c s t : mem_char c (s ++ t) = mem_char c s || mem_char c t.
Proof. unfold mem_char. apply existsb_app. Qed.

Lemma wanted_absent c s :
  forallb (fun d => negb (unwanted d)) s = true -> unwanted c = true ->
  mem_char c s = false.
Proof.
  intros Hs Hc. induction s as [|d r IH]; [done|].
  cbn [forallb] in Hs. apply andb_true_iff in Hs as [Hd Hr].
  apply mem_char_cons. split; [|by apply IH].
  intros ->. by rewrite Hc in Hd.
Qed.

Lemma title_wanted text :
  forallb (fun d => negb (unwanted d)) (extract_title text) = true.
Proof.
  destruct (extract_title_shape text) as (_ & Hc & Ht & _).
  apply clean_Forall in Hc. unfold tidy in Ht.
  apply andb_true_iff in Ht as [Ht _]. apply andb_true_iff in Ht as [Hs _].
  apply (spaced_from_Forall false) in Hs.
  apply forallb_forall. intros d Hd. apply list_elem_of_In in Hd.
  rewrite Forall_forall in Hc, Hs. specialize (Hc d Hd). specialize (Hs d Hd).
  unfold unwanted. rewrite Hc. cbn [orb].
  destruct (isspace d); [|done]. rewrite (Hs eq_refl). reflexivity.
Qed.

Lemma digit_wanted (n : Z) : unwanted (digit n) = false.
Proof.
  unfold digit. pose proof (Z.mod_pos_bound n 10 ltac:(lia)) as Hn.
  assert (H : exists k : nat, (k < 10)%nat /\ n mod 10 = Z.of_nat k)
    by (exists (Z.to_nat (n mod 10)); lia).
  destruct H as (k & Hk & ->).
  do 10 (destruct k as [|k]; [reflexivity|]). lia.
Qed.

Lemma strftime_date_wanted (dt : datetime) :
  forallb (fun d => negb (unwanted d)) (strftime_date dt) = true.
Proof.
  unfold strftime_date, pad4, pad2. cbn [app forallb].
  by rewrite !digit_wanted.
Qed.

End TidyFacts.

Section FilenameChars.

Context `{rt : PyRuntime}.

(** X5. A character that a title never holds (one of those
    [sanitize_filename] removes, or white space other than the space; among
    them the slash, the backslash and the newline) is in the file name of an
    entry exactly when it is among the first 8 characters of the identifier:
    the date and the title never bring one in. *)
Theorem generate_filename_chars (e : entry) (c : char) :
  unwanted c = true ->
  mem_char c (generate_filename e)
  = mem_char c (take 8 (get_or (uuid e) UNKNOWN)).
Proof.
  intros Hc. rewrite generate_filename_shape. unfold filename_stem. cbv zeta.
  rewrite !mem_char_app_orb.
  rewrite (wanted_absent c (extract_title _)) by (try done; apply title_wanted).
  rewrite (wanted_absent c [SPACE]) by done.
  rewrite (wanted_absent c [SPACE; LPAREN]) by done.
  rewrite (wanted_absent c DOT_MD) by done.
  assert (mem_char c
            match convert_to_local_time (get_or (creationDate e) [])
                    (get_or (timeZone e) AMERICA_CHICAGO) with
            | Some dt => strftime_date dt
            | None => UNKNOWN_DATE
            end = false) as ->.
  { destruct (convert_to_local_time _ _);
      [by apply wanted_absent; [apply strftime_date_wanted|]|by apply wanted_absent]. }
  cbn [orb]. by rewrite orb_false_r.
Qed.

End FilenameChars.

(** ** Photos: extensions, links and copies *)

Section ExtensionFacts.

Context `{rt : PyRuntime}.

Implicit Types (s t ext : pystr) (c : char) (ph : photo).

Lemma lower_ascii_idem c : lower_ascii (lower_ascii c) = lower_ascii c.
Proof.
  unfold lower_ascii.
  destruct ((65 <=? c) && (c <=? 90))%N eqn:E; [|by rewrite E].
  apply andb_true_iff in E as [H1 H2]. apply N.leb_le in H1, H2.
  assert ((c + 32 <=? 90)%N = false) as -> by (apply N.leb_gt; lia).
  by rewrite andb_false_r.
Qed.

Lemma lower_ascii_ascii c : is_ascii c = true -> is_ascii (lower_ascii c) = true.
Proof.
  unfold is_ascii, lower_ascii. intros H. apply N.ltb_lt in H.
  destruct ((65 <=? c) && (c <=? 90))%N eqn:E; apply N.ltb_lt; [|done].
  apply andb_true_iff in E as [H1 H2]. apply N.leb_le in H1, H2. lia.
Qed.

Lemma lowered_ascii s :
  forallb is_ascii s = true -> forallb is_ascii (map lower_ascii s) = true.
Proof.
  induction s as [|c r IH]; [done|]. cbn [forallb map]. intros H.
  apply andb_true_iff in H as [Hc Hr]. by rewrite lower_ascii_ascii, IH.
Qed.

Lemma lowered_idem s : map lower_ascii (map lower_ascii s) = map lower_ascii s.
Proof. rewrite map_map. apply map_ext. intros c. apply lower_ascii_idem. Qed.

Lemma str_lower_idem s :
  forallb is_ascii s = true -> str_lower (str_lower s) = str_lower s.
Proof.
  intros H. rewrite (str_lower_ascii s H).
  rewrite str_lower_ascii by by apply lowered_ascii. apply lowered_idem.
Qed.

Lemma normalize_extension_not_jpg ext : normalize_extension ext <> JPG.
Proof.
  unfold normalize_extension.
  destruct (str_eqb _ JPG) eqn:E; [done|].
  intros H. rewrite H in E. discriminate E.
Qed.

Lemma normalize_extension_lower ext :
  forallb is_ascii ext = true ->
  normalize_extension (str_lower ext) = normalize_extension ext.
Proof.
  intros H. unfold normalize_extension.
  rewrite str_lower_idem by done. rewrite (str_lower_ascii ext H).
  by destruct ext.
Qed.

Lemma normalize_extension_idem ext :
  forallb is_ascii ext = true ->
  normalize_extension (normalize_extension ext) = normalize_extension ext.
Proof.
  intros H.
  assert (HJ : normalize_extension JPEG = JPEG).
  { unfold normalize_extension. cbn [truthy JPEG].
    by rewrite str_lower_ascii by reflexivity. }
  unfold normalize_extension at 2 3. cbv zeta.
  destruct (truthy ext) eqn:Ht; [|done].
  destruct (str_eqb (str_lower ext) JPG) eqn:E; [done|].
  unfold normalize_extension. cbv zeta.
  assert (truthy (str_lower ext) = true) as ->
    by (rewrite (str_lower_ascii ext H); by destruct ext).
  rewrite str_lower_idem by done. by rewrite E.
Qed.

(** X6. The extension after [normalize_extension], for a type written in
    ASCII: it is never [jpg]; normalizing it again changes nothing; and it is
    the same whether the type is lowered first, as [copy_photos] does, or
    not, as [convert_image_links] does.  A missing type gives [jpeg]. *)
Theorem normalize_extension_canonical ext :
  forallb is_ascii ext = true ->
  normalize_extension ext <> JPG
  /\ normalize_extension (normalize_extension ext) = normalize_extension ext
  /\ normalize_extension (str_lower ext) = normalize_extension ext
  /\ normalize_extension [] = JPEG.
Proof.
  intros H. split_and!.
  - apply normalize_extension_not_jpg.
  - by apply normalize_extension_idem.
  - by apply normalize_extension_lower.
  - reflexivity.
Qed.

(** The entry of [ext_map] for a photo that no later photo of the list
    shares its identifier with. *)
Lemma fold_ext_map_other (photos_info : list photo) (m : gmap pystr pystr) k :
  Forall (fun ph => get_or (photo_identifier ph) [] <> k) photos_info ->
  fold_left
    (fun ext_map ph =>
       <[get_or (photo_identifier ph) []
         := normalize_extension (get_or (photo_type ph) JPEG)]> ext_map)
    photos_info m !! k = m !! k.
Proof.
  intros H. revert m. induction H as [|ph rest Hph Hrest IH]; intros m; [done|].
  cbn [fold_left]. rewrite IH. by apply lookup_insert_ne.
Qed.

Lemma build_ext_map_lookup (photos_info : list photo) ph :
  NoDup (map (fun p => get_or (photo_identifier p) []) photos_info) ->
  ph ∈ photos_info ->
  build_ext_map photos_info !! get_or (photo_identifier ph) []
  = Some (normalize_extension (get_or (photo_type ph) JPEG)).
Proof.
  intros Hnd Hin. apply list_elem_of_split in Hin as (l1 & l2 & ->).
  rewrite map_app in Hnd. apply NoDup_app in Hnd as (_ & _ & Hnd).
  cbn [map] in Hnd. apply NoDup_cons in Hnd as [Hnot _].
  unfold build_ext_map. rewrite fold_left_app. cbn [fold_left].
  rewrite fold_ext_map_other; [apply lookup_insert_eq|].
  apply Forall_forall. intros p Hp Heq. apply Hnot.
  rewrite <- Heq. apply list_elem_of_In.
  apply (in_map (fun p => get_or (photo_identifier p) [])).
  by apply list_elem_of_In.
Qed.

(** X7. The link and the copy agree.  For a photo of the list with a
    hexadecimal identifier of its own and a type written in ASCII, the token
    of the photo is rewritten to the wiki link of [photos/] followed by the
    very file name [copy_photos] gives the copy: the identifier, a dot and
    the normalized extension. *)
Theorem link_names_the_copy (photos_info : list photo) ph
  (pre alt post : pystr) :
  ph ∈ photos_info ->
  NoDup (map (fun p => get_or (photo_identifier p) []) photos_info) ->
  get_or (photo_identifier ph) [] <> [] ->
  forallb is_hex (get_or (photo_identifier ph) []) = true ->
  forallb is_ascii (get_or (photo_type ph) JPEG) = true ->
  has_infix BANG_BRACKET pre = false ->
  mem_char RBRACKET alt = false -> mem_char NL alt = false ->
  convert_image_links
    (pre ++ image_token alt (get_or (photo_identifier ph) []) ++ post) photos_info
  = pre ++ (PHOTOS_OPEN ++ photo_dest ph ++ PHOTOS_CLOSE)
        ++ convert_image_links post photos_info.
Proof.
  intros Hin Hnd Hne Hhex Hascii Hpre Hb Hn.
  rewrite convert_token by done. f_equal. f_equal.
  unfold replace_image. rewrite build_ext_map_lookup by done.
  destruct (get_or (photo_identifier ph) []) as [|c r] eqn:E; [done|].
  cbn [truthy negb default]. unfold photo_dest, name_ext. rewrite E.
  rewrite normalize_extension_lower by done. by rewrite <- !app_assoc.
Qed.

Lemma match_alt_target s r :
  match_alt s = Some r -> has_infix MOMENT_TARGET s = true.
Proof.
  induction s as [|c t IH].
  - cbn. discriminate.
  - cbn [match_alt has_infix].
    destruct (match_target (c :: t)) eqn:E.
    + intros _. unfold match_target in E.
      destruct (startswith MOMENT_TARGET (c :: t)); [done|discriminate E].
    + destruct (char_eqb c NL); [discriminate|].
      intros H. rewrite (IH H). apply orb_true_r.
Qed.

Lemma has_infix_tail p c s : has_infix p (c :: s) = false -> has_infix p s = false.
Proof. cbn [has_infix]. intros H. by apply orb_false_iff in H as [_ H]. Qed.

Lemma match_image_needs s :
  has_infix BANG_BRACKET s = false \/ has_infix MOMENT_TARGET s = false ->
  match_image s = None.
Proof.
  intros H. unfold match_image.
  destruct (startswith BANG_BRACKET s) eqn:E; [|done].
  destruct H as [H|H].
  - destruct s; cbn [has_infix] in H; by rewrite E in H.
  - destruct (match_alt (drop 2 s)) as [r|] eqn:Em; [|done].
    apply match_alt_target in Em.
    destruct s as [|a [|b s]];
      [by cbn in E|cbn in E; by rewrite andb_false_r in E|].
    apply has_infix_tail, has_infix_tail in H. rewrite !skipn_cons in Em.
    rewrite drop_0 in Em. congruence.
Qed.

Lemma sub_images_none (f : pystr -> pystr) s :
  has_infix BANG_BRACKET s = false \/ has_infix MOMENT_TARGET s = false ->
  sub_images f 0 s = s.
Proof.
  induction s as [|c r IH]; [done|]. intros H.
  cbn [sub_images]. rewrite (match_image_needs (c :: r) H).
  f_equal. apply IH. destruct H as [H|H]; [left|right]; by eapply has_infix_tail.
Qed.

(** X8. A text is returned as it is when it has no bang followed by a
    bracket, or when it has no closing bracket followed by a parenthesis and
    the scheme [dayone-moment://]: ordinary Markdown images and links are left
    alone. *)
Theorem convert_image_links_leaves_other_text (text : pystr)
  (photos_info : list photo) :
  has_infix BANG_BRACKET text = false \/ has_infix MOMENT_TARGET text = false ->
  convert_image_links text photos_info = text.
Proof. intros H. rewrite convert_image_links_sub. by apply sub_images_none. Qed.

End ExtensionFacts.

(** ** The modification time: written, then read back *)

Section ModifiedFacts.

Context `{rt : PyRuntime}.

Implicit Types (s t l d : pystr) (c : char) (b : bool) (ls : list pystr).

Lemma digit_range (n : Z) : (48 <= digit n <= 57)%N.
Proof.
  unfold digit. pose proof (Z.mod_pos_bound n 10 ltac:(lia)) as Hn. lia.
Qed.

Lemma char_eqb_digit c (n : Z) :
  (c < 48)%N \/ (57 < c)%N -> char_eqb c (digit n) = false.
Proof.
  intros H. pose proof (digit_range n). unfold char_eqb. apply N.eqb_neq. lia.
Qed.

(** The characters of a formatted date and time: digits, dashes, colons and
    the letter T. *)
Lemma format_local_datetime_chars (dt : datetime) c :
  ((c < 45)%N \/ (58 < c < 84)%N \/ (84 < c)%N) ->
  mem_char c (format_local_datetime dt) = false.
Proof.
  intros H. unfold format_local_datetime, strftime_date, pad4, pad2, mem_char.
  cbn [app existsb]. rewrite !char_eqb_digit by lia.
  unfold char_eqb, DASH, COLON, LETTER_T.
  repeat match goal with
         | |- context [N.eqb c ?k] =>
             replace (N.eqb c k) with false by (symmetry; apply N.eqb_neq; lia)
         end.
  reflexivity.
Qed.

Lemma format_local_datetime_colon (dt : datetime) :
  mem_char COLON (format_local_datetime dt) = true.
Proof.
  unfold format_local_datetime, strftime_date, pad4, pad2, mem_char.
  cbn [app existsb]. rewrite !char_eqb_digit by (unfold COLON; lia).
  reflexivity.
Qed.

Lemma join_lines ls l :
  join [NL] (ls ++ [l]) = concat (map (fun x => x ++ [NL]) ls) ++ l.
Proof.
  induction ls as [|x ls IH]; [done|].
  cbn [app map concat]. rewrite <- app_assoc, <- IH.
  destruct (ls ++ [l]) as [|y r] eqn:E; [by destruct ls|].
  change (join [NL] (x :: y :: r)) with (x ++ [NL] ++ join [NL] (y :: r)).
  by rewrite <- app_assoc.
Qed.

Lemma universal_newlines_app s t :
  mem_char CR s = false -> universal_newlines (s ++ t) = s ++ universal_newlines t.
Proof.
  induction s as [|c r IH]; [done|]. intros H.
  apply mem_char_cons in H as [Hc Hr]. cbn [app universal_newlines].
  destruct (char_eqb c CR) eqn:E; [by apply char_eqb_eq in E|].
  by rewrite IH.
Qed.

Lemma rest_of_line_app l t : mem_char NL l = false -> rest_of_line (l ++ NL :: t) = l.
Proof.
  induction l as [|c r IH]; intros H; cbn [app rest_of_line].
  - done.
  - apply mem_char_cons in H as [Hc Hr].
    destruct (char_eqb c NL) eqn:E; [by apply char_eqb_eq in E|].
    by rewrite IH.
Qed.

(** A line that does not match is passed over. *)
Lemma search_modified_skip b l t :
  mem_char NL l = false ->
  (b = true -> match_modified (l ++ NL :: t) = None) ->
  search_modified b (l ++ NL :: t) = search_modified true t.
Proof.
  revert b. induction l as [|c r IH]; intros b Hl Hb.
  - cbn [app] in *. cbn [search_modified].
    assert ((if b then match_modified (NL :: t) else None) = None) as ->
      by (destruct b; [by apply Hb|done]).
    done.
  - cbn [app] in *. cbn [search_modified].
    assert ((if b then match_modified (c :: r ++ NL :: t) else None) = None) as ->
      by (destruct b; [by apply Hb|done]).
    apply mem_char_cons in Hl as [Hc Hr].
    destruct (char_eqb c NL) eqn:E; [by apply char_eqb_eq in E|].
    by apply IH.
Qed.

Lemma other_line_no_match l t : other_line l -> match_modified (l ++ NL :: t) = None.
Proof.
  intros (_ & _ & H). unfold match_modified.
  destruct l as [|c r]; [done|]. cbn [app startswith MODIFIED_KEY]. by rewrite H.
Qed.

Lemma other_lines_cr ls :
  Forall other_line ls -> mem_char CR (concat (map (fun x => x ++ [NL]) ls)) = false.
Proof.
  induction 1 as [|l ls (_ & Hl & _) _ IH]; [done|].
  cbn [map concat]. rewrite !mem_char_app_orb, Hl, IH. reflexivity.
Qed.

Lemma search_modified_others ls t :
  Forall other_line ls ->
  search_modified true (concat (map (fun x => x ++ [NL]) ls) ++ t)
  = search_modified true t.
Proof.
  induction 1 as [|l ls Hl _ IH]; [done|].
  cbn [map concat]. rewrite <- !app_assoc. cbn [app].
  rewrite search_modified_skip; [done|by destruct Hl|].
  intros _. by apply other_line_no_match.
Qed.

Lemma search_modified_here s g :
  match_modified s = Some g -> search_modified true s = Some g.
Proof. intros H. destruct s; cbn [search_modified]; by rewrite H. Qed.

(** The line of the modification time: the value is what follows the key and
    the space, up to the end of the line. *)
Lemma match_modified_value c q t :
  isspace c = false -> mem_char NL (c :: q) = false ->
  match_modified (MODIFIED_KEY ++ SPACE :: (c :: q) ++ NL :: t) = Some (c :: q).
Proof.
  intros Hc Hq. unfold match_modified.
  assert (startswith MODIFIED_KEY (MODIFIED_KEY ++ SPACE :: (c :: q) ++ NL :: t)
          = true) as -> by (apply startswith_spec; by eexists).
  rewrite drop_app_length. cbn [spaces_then_value app].
  change (isspace SPACE) with true. cbv iota. rewrite Hc.
  change (c :: q ++ NL :: t) with ((c :: q) ++ NL :: t).
  by rewrite rest_of_line_app.
Qed.

Lemma mem_char_rev c s : mem_char c (rev s) = mem_char c s.
Proof.
  induction s as [|x s IH]; [done|]. cbn [rev].
  rewrite mem_char_app_orb, IH. unfold mem_char. cbn [existsb].
  by rewrite orb_false_r, orb_comm.
Qed.

Lemma lstrip_char_head c s : char_eqb c DQUOTE = false -> lstrip_char DQUOTE (c :: s) = c :: s.
Proof. intros H. cbn [lstrip_char]. by rewrite H. Qed.

(** Quotes around a value without quotes are taken off by [strip]. *)
Lemma strip_char_quoted d :
  mem_char DQUOTE d = false -> strip_char DQUOTE ([DQUOTE] ++ d ++ [DQUOTE]) = d.
Proof.
  intros Hd. unfold strip_char. cbn [app lstrip_char].
  change (char_eqb DQUOTE DQUOTE) with true. cbv iota.
  destruct d as [|c r]; [done|].
  apply mem_char_cons in Hd as [Hc Hr].
  assert (E : char_eqb c DQUOTE = false).
  { destruct (char_eqb c DQUOTE) eqn:E; [|done].
    apply char_eqb_eq in E. by subst c. }
  cbn [app]. rewrite lstrip_char_head by done.
  change (c :: r ++ [DQUOTE]) with ((c :: r) ++ [DQUOTE]).
  rewrite rev_app_distr. cbn [rev app lstrip_char].
  change (char_eqb DQUOTE DQUOTE) with true. cbv iota.
  destruct (rev r ++ [c]) as [|x y] eqn:Er.
  { by destruct (rev r). }
  assert (Hx : char_eqb x DQUOTE = false).
  { assert (Hm : mem_char DQUOTE (rev r ++ [c]) = false).
    { change (rev r ++ [c]) with (rev (c :: r)). rewrite mem_char_rev.
      by apply mem_char_cons. }
    rewrite Er in Hm. apply mem_char_cons in Hm as [Hm _].
    destruct (char_eqb x DQUOTE) eqn:Ex; [|done].
    apply char_eqb_eq in Ex. by subst x. }
  rewrite lstrip_char_head by done. rewrite <- Er.
  by rewrite rev_app_distr, rev_involutive.
Qed.

Lemma escape_quotes_fixed d : mem_char DQUOTE d = false -> escape_quotes d = d.
Proof.
  unfold escape_quotes. induction d as [|c r IH]; [done|]. intros H.
  apply mem_char_cons in H as [Hc Hr]. cbn [map concat].
  destruct (char_eqb c DQUOTE) eqn:E; [apply char_eqb_eq in E; by subst c|].
  cbn [app]. by rewrite IH.
Qed.

Lemma escape_quotes_absent c u :
  c <> BACKSLASH -> mem_char c u = false -> mem_char c (escape_quotes u) = false.
Proof.
  intros Hb. unfold escape_quotes. induction u as [|x r IH]; [done|]. intros H.
  apply mem_char_cons in H as [Hx Hr]. cbn [map concat].
  rewrite mem_char_app_orb, IH by done. rewrite orb_false_r.
  destruct (char_eqb x DQUOTE) eqn:E.
  - apply char_eqb_eq in E. subst x. apply mem_char_cons. split; [done|].
    by apply mem_char_cons.
  - by apply mem_char_cons.
Qed.

Lemma needs_quotes_colon d : mem_char COLON d = true -> needs_quotes d = true.
Proof.
  intros H. unfold needs_quotes, yaml_special. cbn [existsb].
  change (mem_char 58%N d) with (mem_char COLON d). by rewrite H.
Qed.

(** The line of a string value under a key that does not begin with the
    letter m. *)
Lemma str_line_other (key value : pystr) :
  other_line key -> key <> [] ->
  mem_char NL value = false -> mem_char CR value = false ->
  Forall other_line (fm_lines (key, VStr value)).
Proof.
  intros (Hk1 & Hk2 & Hk3) Hne Hv1 Hv2. unfold fm_lines.
  destruct key as [|k0 key]; [done|].
  destruct (needs_quotes value); (constructor; [|constructor]);
    unfold other_line; rewrite !mem_char_app_orb, Hk1, Hk2;
    rewrite ?escape_quotes_absent by done; rewrite ?Hv1, ?Hv2; by split_and!.
Qed.

(** The frontmatter of an entry with a modification time that converts: the
    fields before the one of the modification time give lines that are not
    taken for it. *)
Lemma build_frontmatter_modified e iso (dt : datetime) :
  modifiedDate e = Some iso ->
  convert_to_local_time iso (get_or (timeZone e) AMERICA_CHICAGO) = Some dt ->
  mem_char NL (get_or (uuid e) []) = false ->
  mem_char CR (get_or (uuid e) []) = false ->
  exists before after,
    build_frontmatter e
    = before ++ (str "modified", VStr (format_local_datetime dt)) :: after
    /\ Forall other_line (concat (map fm_lines before)).
Proof.
  intros Hm Hdt Hnl Hcr. unfold build_frontmatter. cbv zeta.
  rewrite Hm, Hdt. rewrite app_assoc. eexists _, _. split; [reflexivity|].
  rewrite map_app, concat_app. apply Forall_app. split.
  - destruct (uuid e) as [u|]; [|done]. cbn [map concat]. rewrite app_nil_r.
    by apply str_line_other.
  - destruct (creationDate e) as [c|]; [|done].
    destruct (convert_to_local_time c _) as [dc|]; [|done].
    cbn [map concat]. rewrite app_nil_r.
    apply str_line_other; try done;
      apply format_local_datetime_chars; unfold NL, CR; lia.
Qed.

(** The text of a file whose frontmatter has the line [l] after the lines
    [lb]: the search gets to [l]. *)
Lemma fenced_text (lb la : list pystr) l (body : pystr) :
  Forall other_line lb -> mem_char CR l = false ->
  search_modified true
    (universal_newlines
       (join [NL] ([YAML_FENCE] ++ (lb ++ [l] ++ la) ++ [YAML_FENCE]) ++ body))
  = search_modified true
      (l ++ NL :: universal_newlines
                    (concat (map (fun x => x ++ [NL]) la) ++ YAML_FENCE ++ body)).
Proof.
  intros Hlb Hl.
  assert (E : [YAML_FENCE] ++ (lb ++ [l] ++ la) ++ [YAML_FENCE]
              = ((YAML_FENCE :: lb) ++ l :: la) ++ [YAML_FENCE])
    by (cbn [app]; by rewrite <- !app_assoc).
  rewrite E, join_lines, map_app, concat_app.
  assert (Hfence : Forall other_line (YAML_FENCE :: lb))
    by (constructor; [by split_and!|done]).
  set (x := concat (map _ (YAML_FENCE :: lb))).
  cbn [map concat].
  set (y := concat (map _ la)).
  assert (E2 : ((x ++ (l ++ [NL]) ++ y) ++ YAML_FENCE) ++ body
               = (x ++ l ++ [NL]) ++ y ++ YAML_FENCE ++ body)
    by (by rewrite <- !app_assoc).
  rewrite E2, universal_newlines_app.
  - rewrite <- !app_assoc. subst x. by rewrite search_modified_others.
  - rewrite !mem_char_app_orb, Hl. subst x. rewrite other_lines_cr by done.
    reflexivity.
Qed.

(** X9. The modification time written is the one read back.  When the
    modification time of the entry converts to a local time, and the
    identifier has no line break, [extract_modified_date_from_file] returns,
    on a file that holds the text [process_entries] writes for the entry,
    the very string [format_local_datetime] gave for that local time,
    whatever the other fields and the body of the entry say. *)
Theorem modified_date_round_trip (e : entry) (iso : pystr) (dt : datetime) :
  modifiedDate e = Some iso ->
  convert_to_local_time iso (get_or (timeZone e) AMERICA_CHICAGO) = Some dt ->
  mem_char NL (get_or (uuid e) []) = false ->
  mem_char CR (get_or (uuid e) []) = false ->
  extract_modified_date (full_content e) = Some (format_local_datetime dt)
  /\ forall w (files : gmap pystr pystr) (name : pystr),
       journal w = Some files -> files !! name = Some (full_content e) ->
       extract_modified_date_from_file w name = Some (format_local_datetime dt).
Proof.
  intros Hm Hdt Hnl Hcr.
  assert (H : extract_modified_date (full_content e)
              = Some (format_local_datetime dt));
    [|split; [done|]; intros w files name Hj Hn;
      by rewrite (extract_modified_date_from_file_eq w files name _ Hj Hn)].
  destruct (build_frontmatter_modified e iso dt Hm Hdt Hnl Hcr)
    as (before & after & Hfm & Hbefore).
  set (d := format_local_datetime dt) in *.
  assert (Hd : forall c, (c < 45)%N -> mem_char c d = false)
    by (intros c Hc; apply format_local_datetime_chars; lia).
  unfold extract_modified_date, full_content, frontmatter_to_yaml. cbv zeta.
  rewrite Hfm, map_app, concat_app. cbn [map concat].
  unfold fm_lines at 2.
  rewrite needs_quotes_colon by apply format_local_datetime_colon.
  rewrite escape_quotes_fixed by (apply Hd; unfold DQUOTE; lia).
  rewrite fenced_text; [|done|].
  - rewrite (search_modified_here _ ([DQUOTE] ++ d ++ [DQUOTE])).
    + rewrite strip_fixed.
      * by rewrite strip_char_quoted by (apply Hd; unfold DQUOTE; lia).
      * reflexivity.
      * rewrite !rev_app_distr. reflexivity.
    + change ((str "modified" ++ str ": " ++ [DQUOTE] ++ d ++ [DQUOTE]) ++ NL :: ?t)
        with (MODIFIED_KEY ++ SPACE :: (DQUOTE :: d ++ [DQUOTE]) ++ NL :: t).
      apply match_modified_value; [reflexivity|].
      apply mem_char_cons. split; [done|].
      rewrite mem_char_app_orb, Hd by (unfold NL; lia). reflexivity.
  - rewrite !mem_char_app_orb, Hd by (unfold CR; lia). reflexivity.
Qed.

End ModifiedFacts.

(** ** The copies of the photos *)

Section PhotoCopies.

Context `{rt : PyRuntime}.

Implicit Types (a : args) (e : entry) (w : world) (ph : photo) (phs : list photo)
  (st : run_state) (s : stats) (entries : list entry).














End PhotoCopies.

(** ** The entry files a run leaves alone *)

Section EntryFiles.

Context `{rt : PyRuntime}.

Implicit Types (a : args) (e : entry) (w : world) (st : run_state) (s : stats)
  (n g f : pystr) (entries : list entry).


Lemma write_entry_keeps a e f s w (out : list line) :
  entry_files w !! f = None ->
  entry_files w ⊆ entry_files (rs_world (write_entry a e f s w out)).
Proof.
  intros Hf. unfold entry_files in *. rewrite write_entry_journal.
  destruct (dry_run a); [done|]. unfold write_file.
  destruct (journal w) as [files|]; [|done].
  destruct (writable f); [|done]. cbn [get_or] in *. by apply insert_subseteq.
Qed.

(** The lookup in a directory that does not exist finds nothing. *)
Lemma find_existing_missing w (k : pystr) :
  journal w = None -> find_existing_file w k = Done None.
Proof. intros Hj. unfold find_existing_file. by rewrite Hj. Qed.



Lemma entry_files_start a w :
  entry_files (if negb (dry_run a) then make_dirs w else w) = entry_files w.
Proof.
  destruct (negb (dry_run a)); [|done].
  unfold entry_files, make_dirs. by cbn [journal get_or].
Qed.

Lemma entry_files_run a entries w :
  entry_files (run_world a entries w)
  = entry_files (rs_world (loop_state a entries w)).
Proof.
  unfold run_world. destruct entries as [|e0 rest].
  - unfold loop_state. cbn [fold_left rs_world process_entries get_or final_world].
    by rewrite entry_files_start.
  - rewrite process_entries_loop. cbv zeta. cbn [final_world].
    by destruct (negb (dry_run a)).
Qed.


(** One entry without [--update]: no file is changed or removed. *)
Lemma process_entry_keeps a st e :
  update a = false ->
  (texted e = true -> is_Some (uuid e) /\ glob_plain (entry_key e) = true) ->
  entry_files (rs_world st) ⊆ entry_files (rs_world (process_entry a st e)).
Proof.
  intros Hupd Hkey.
  destruct (texted e) eqn:Ht; [|by rewrite process_entry_textless].
  destruct Hkey as [Hu Hglob]; [done|].
  pose proof (own_filename_matches e Hu) as Hown.
  unfold process_entry. cbv zeta. rewrite decide_entry_texted, Hupd by done.
  destruct (journal (rs_world st)) as [files|] eqn:Hj.
  - destruct (find_existing_plain (rs_world st) files (entry_key e) Hj Hglob)
      as (r & -> & Hr).
    destruct r as [g|]; [done|].
    apply write_entry_keeps. unfold entry_files. rewrite Hj. cbn [get_or].
    apply not_elem_of_dom. intros Hin. by rewrite (Hr _ Hin) in Hown.
  - rewrite find_existing_missing by done.
    apply write_entry_keeps. unfold entry_files. by rewrite Hj.
Qed.

Lemma loop_keeps a entries st :
  update a = false ->
  (forall e, e ∈ entries -> texted e = true ->
     is_Some (uuid e) /\ glob_plain (entry_key e) = true) ->
  entry_files (rs_world st)
  ⊆ entry_files (rs_world (fold_left (process_entry a) entries st)).
Proof.
  intros Hupd. revert st. induction entries as [|e rest IH]; intros st Hkey; [done|].
  cbn [fold_left]. transitivity (entry_files (rs_world (process_entry a st e))).
  - apply process_entry_keeps; [done|]. apply Hkey, elem_of_cons. by left.
  - apply IH. intros e' He'. apply Hkey, elem_of_cons. by right.
Qed.

(** X12. Without [--update] nothing is overwritten or deleted.  When every
    entry with text has an identifier whose first 8 characters hold no
    wildcard of [glob], every file of the entries directory is after the run
    where it was, with the text it had. *)
Theorem default_mode_keeps_files a entries w :
  update a = false ->
  (forall e, e ∈ entries -> texted e = true ->
     is_Some (uuid e) /\ glob_plain (entry_key e) = true) ->
  entry_files w ⊆ entry_files (run_world a entries w).
Proof.
  intros Hupd Hkey. rewrite entry_files_run. unfold loop_state.
  rewrite <- (entry_files_start a w) at 1.
  by apply (loop_keeps a entries (mk_run stats0 _ [])).
Qed.

End EntryFiles.

(** ** The counters and the log *)

Section Counters.

Context `{rt : PyRuntime}.

Implicit Types (a : args) (e : entry) (w : world) (st : run_state) (s : stats)
  (entries : list entry).

Lemma counted_skipped (n : nat) s :
  counted n s -> counted (S n) (bump_skipped (bump_total s)).
Proof. unfold counted. cbn. lia. Qed.

Lemma counted_failed (n : nat) s :
  counted n s -> counted (S n) (bump_errors (bump_total s)).
Proof. unfold counted. cbn. lia. Qed.

Lemma counted_written (n : nat) s s' :
  counted n s ->
  s' = bump_created (bump_total s) \/ s' = bump_updated (bump_total s) ->
  counted (S n) s' /\ counted (S n) (bump_errors s').
Proof. unfold counted. intros H [-> | ->]; cbn; lia. Qed.

Lemma process_entry_counted a st e (n : nat) :
  counted n (rs_stats st) -> counted (S n) (rs_stats (process_entry a st e)).
Proof.
  intros H. unfold process_entry. cbv zeta.
  destruct (decide_entry a e (rs_world st)) as [| | |g|g|g];
    cbn [rs_stats entry_failed];
    try (by apply counted_skipped); try (by apply counted_failed).
  - match goal with
    | |- context [write_entry ?a ?e ?f ?s ?w ?o] =>
        destruct (write_entry_stats a e f s w o) as [-> | ->];
        destruct (counted_written n (rs_stats st) s H) as [H1 H2]; auto
    end.
  - destruct (if _ : bool then unlink _ _ else _) as [j|];
      [|by apply counted_failed].
    match goal with
    | |- context [write_entry ?a ?e ?f ?s ?w ?o] =>
        destruct (write_entry_stats a e f s w o) as [-> | ->];
        destruct (counted_written n (rs_stats st) s H) as [H1 H2]; auto
    end.
Qed.

Lemma loop_counted a entries st (n : nat) :
  counted n (rs_stats st) ->
  counted (n + length entries) (rs_stats (fold_left (process_entry a) entries st)).
Proof.
  revert n st. induction entries as [|e rest IH]; intros n st H.
  - by rewrite Nat.add_0_r.
  - cbn [fold_left length].
    replace (n + S (length rest))%nat with (S n + length rest)%nat by lia.
    apply IH. by apply process_entry_counted.
Qed.

(** Without [--update] no entry is counted as updated. *)
Lemma process_entry_updated a st e :
  update a = false ->
  updated (rs_stats (process_entry a st e)) = updated (rs_stats st).
Proof.
  intros Hupd. unfold process_entry, decide_entry. cbv zeta. rewrite Hupd.
  destruct (negb (truthy_opt (text e))); [done|].
  destruct (find_existing_file _ _) as [[g|]|]; try done.
  match goal with
  | |- context [write_entry ?a ?e ?f ?s ?w ?o] =>
      by destruct (write_entry_stats a e f s w o) as [-> | ->]
  end.
Qed.

Lemma loop_updated a entries st :
  update a = false ->
  updated (rs_stats (fold_left (process_entry a) entries st)) = updated (rs_stats st).
Proof.
  intros Hupd. revert st. induction entries as [|e rest IH]; intros st; [done|].
  cbn [fold_left]. rewrite IH. by apply process_entry_updated.
Qed.

(** X13. The counters of the summary.  In every mode, when there are
    entries, the total is the number of entries; the entries created,
    updated and skipped are together no more than the total, and with the
    errors no less; the errors are no more than the total.  Without
    [--update] no entry is counted as updated.  No summary means no
    entries. *)
Theorem summary_counts_every_entry a entries w :
  match summary (process_entries a (Parsed (Some entries)) w) with
  | Some s =>
      total s = length entries
      /\ (created s + updated s + skipped s <= total s)%nat
      /\ (total s <= created s + updated s + skipped s + errors s)%nat
      /\ (errors s <= total s)%nat
      /\ (if update a then True else updated s = 0%nat)
  | None => entries = []
  end.
Proof.
  destruct entries as [|e0 rest]; [done|].
  rewrite process_entries_loop. cbv zeta. cbn [summary]. unfold loop_state.
  set (entries := e0 :: rest).
  set (st0 := mk_run stats0 (if negb (dry_run a) then make_dirs w else w) []).
  destruct (loop_counted a entries st0 0) as (H1 & H2 & H3 & H4);
    [by unfold counted; cbn|].
  cbn [Nat.add] in *. rewrite H1. split_and!; try done.
  destruct (update a) eqn:Hupd; [done|]. by rewrite loop_updated.
Qed.

(** The loop leaves the log alone. *)
Lemma write_entry_log a e (f : pystr) s w (out : list line) :
  conversion_log (rs_world (write_entry a e f s w out)) = conversion_log w.
Proof.
  unfold write_entry, copy_photos. destruct (negb (dry_run a)).
  - destruct (write_file _ _ _) as [j|]; [|done].
    destruct (copy_photos_loop _ _ _ _) as [[w' o'] r] eqn:Hc.
    apply copy_photos_loop_frame in Hc as (_ & Hl & _). by destruct r.
  - destruct (verbose a); [|done].
    destruct (copy_photos_loop _ _ _ _) as [[w' o'] r] eqn:Hc.
    apply copy_photos_loop_frame in Hc as (_ & Hl & _). by destruct r.
Qed.

Lemma process_entry_log a st e :
  conversion_log (rs_world (process_entry a st e)) = conversion_log (rs_world st).
Proof.
  unfold process_entry. cbv zeta.
  destruct (decide_entry a e (rs_world st)) as [| | |g|g|g]; try done.
  - apply write_entry_log.
  - destruct (if _ : bool then unlink _ _ else _) as [j|]; [|done].
    by rewrite write_entry_log.
Qed.

Lemma loop_log a entries st :
  conversion_log (rs_world (fold_left (process_entry a) entries st))
  = conversion_log (rs_world st).
Proof.
  revert st. induction entries as [|e rest IH]; intros st; [done|].
  cbn [fold_left]. rewrite IH. apply process_entry_log.
Qed.

(** X14. The log.  A run that writes (no [--dry-run]) and finds entries
    appends one record to the log, with the input, the output, the mode and
    the very counters of the summary, and leaves the records before it as
    they are; every other run (a preview, a missing or unreadable input, an
    export without entries) leaves the log as it is. *)
Theorem run_appends_one_log_record a (inp : input_file) w :
  conversion_log (final_world (process_entries a inp w))
  = conversion_log w
    ++ match summary (process_entries a inp w) with
       | Some s =>
           if dry_run a then []
           else [mk_log_record (input a) (output a) (update a) s]
       | None => []
       end.
Proof.
  destruct inp as [| |[[|e0 rest]|]];
    try (cbn [process_entries get_or final_world summary]; by rewrite app_nil_r).
  rewrite process_entries_loop. cbv zeta. cbn [final_world summary].
  unfold loop_state. destruct (dry_run a); cbn [negb].
  - by rewrite loop_log, app_nil_r.
  - unfold write_log. cbn [set_log conversion_log]. by rewrite loop_log.
Qed.

End Counters.

(** ** What a run without error leaves for an entry *)

Section Coverage.

Context `{rt : PyRuntime}.

Implicit Types (a : args) (e : entry) (w : world) (st : run_state) (s : stats)
  (n g f : pystr) (entries seen todo : list entry).






End Coverage.

(** ** The preview and the run *)

Section Preview.

Context `{rt : PyRuntime}.

Implicit Types (a : args) (e : entry) (w : world) (st : run_state) (s : stats)
  (n g f k : pystr) (entries seen todo : list entry).








End Preview.

(** ** Titles: the first line and the header *)

Section TitleLines.

Implicit Types (s t u v first tail : pystr) (c : char).

Lemma lstrip_app_clean u v :
  v <> [] -> starts_clean v = true -> lstrip (u ++ v) = lstrip u ++ v.
Proof.
  intros Hv Hc. induction u as [|c u IH]; cbn [app lstrip].
  - by apply lstrip_fixed.
  - by destruct (isspace c).
Qed.

Lemma rstrip_app_clean first tail :
  first <> [] -> starts_clean (rev first) = true ->
  rstrip (first ++ tail) = first ++ rstrip tail.
Proof.
  intros Hne Hc. unfold rstrip. rewrite rev_app_distr, lstrip_app_clean.
  - by rewrite rev_app_distr, rev_involutive.
  - intros H. apply (f_equal (@rev char)) in H. by rewrite rev_involutive in H.
  - done.
Qed.

Lemma starts_clean_app s t : s <> [] -> starts_clean (s ++ t) = starts_clean s.
Proof. by destruct s. Qed.

Lemma strip_app_clean first tail :
  first <> [] -> starts_clean first = true -> starts_clean (rev first) = true ->
  strip (first ++ tail) = first ++ rstrip tail.
Proof.
  intros Hne H1 H2. unfold strip.
  rewrite lstrip_fixed by by rewrite starts_clean_app.
  by apply rstrip_app_clean.
Qed.

Lemma split_lines_acc_app s t (cur : pystr) :
  mem_char NL s = false ->
  split_lines_acc (s ++ t) cur = split_lines_acc t (rev s ++ cur).
Proof.
  revert cur. induction s as [|c s IH]; intros cur H; [done|].
  apply mem_char_cons in H as [Hc Hs]. cbn [app split_lines_acc rev].
  destruct (char_eqb c NL) eqn:E; [by apply char_eqb_eq in E|].
  rewrite IH by done. by rewrite <- app_assoc.
Qed.

(** The lines of a text whose first line has no white space at its ends. *)
Lemma title_lines first tail :
  first <> [] -> starts_clean first = true -> starts_clean (rev first) = true ->
  mem_char NL first = false ->
  tail = [] \/ (exists rest, tail = NL :: rest) ->
  exists more, split_lines (strip (first ++ tail)) = first :: more.
Proof.
  intros Hne H1 H2 Hnl Htail. rewrite strip_app_clean by done.
  unfold split_lines. rewrite split_lines_acc_app, app_nil_r by done.
  destruct (rstrip_prefix tail) as [k Hk].
  destruct (rstrip tail) as [|c z] eqn:E.
  - exists []. cbn [split_lines_acc]. by rewrite rev_involutive.
  - destruct Htail as [->|[rest ->]]; [by destruct k|].
    injection Hk as <- _. cbn [split_lines_acc].
    change (char_eqb NL NL) with true. cbv iota. rewrite rev_involutive.
    by eexists.
Qed.

Lemma tidy_parts t :
  tidy t = true ->
  spaced_from false t = true /\ starts_clean t = true
  /\ starts_clean (rev t) = true.
Proof.
  unfold tidy. intros H. apply andb_true_iff in H as [H H3].
  by apply andb_true_iff in H as [H1 H2].
Qed.

Lemma tidy_no_newline t : tidy t = true -> mem_char NL t = false.
Proof.
  intros H. apply tidy_parts in H as (H & _ & _).
  apply (spaced_from_Forall false) in H.
  induction H as [|c r Hc Hr IH]; [done|].
  apply mem_char_cons. split; [|done]. intros <-. by specialize (Hc eq_refl).
Qed.

Lemma mem_char_repeat c d (k : nat) : c <> d -> mem_char c (repeat d k) = false.
Proof.
  intros H. induction k as [|k IH]; [done|]. cbn [repeat].
  by apply mem_char_cons.
Qed.

Lemma lstrip_char_repeat c (k : nat) s :
  lstrip_char c (repeat c k ++ s) = lstrip_char c s.
Proof.
  induction k as [|k IH]; [done|]. cbn [repeat app lstrip_char].
  unfold char_eqb at 1. by rewrite N.eqb_refl.
Qed.

Lemma lstrip_spaces (j : nat) s : lstrip (repeat SPACE j ++ s) = lstrip s.
Proof. induction j as [|j IH]; [done|]. by cbn [repeat app lstrip]. Qed.

(** X17. The title of a text that begins with an ordinary line.  When the
    first line is not empty, holds none of the characters
    [sanitize_filename] removes, has no white space but single spaces between
    its words, is at most 50 characters long and begins neither with a hash
    sign nor with a bang and a bracket, the title is that line as it is,
    whatever follows it. *)
Theorem extract_title_first_line t tail :
  t <> [] -> clean t = true -> tidy t = true -> (length t <= 50)%nat ->
  startswith [HASH] t = false -> startswith BANG_BRACKET t = false ->
  tail = [] \/ (exists rest, tail = NL :: rest) ->
  extract_title (t ++ tail) = t.
Proof.
  intros Hne Hc Ht Hl Hh Hb Htail.
  destruct (tidy_parts t Ht) as (_ & H1 & H2).
  destruct (title_lines t tail Hne H1 H2 (tidy_no_newline t Ht) Htail)
    as [more Hlines].
  unfold extract_title.
  assert (truthy (t ++ tail) = true) as -> by by destruct t.
  cbn [negb]. cbv zeta. rewrite Hlines. cbn [first_title_line].
  rewrite (strip_fixed t) by done. rewrite Hh.
  assert (truthy t = true) as -> by by destruct t.
  unfold is_image_only. rewrite Hb. cbn [andb negb].
  by apply sanitize_filename_fixed.
Qed.

(** X18. The title of a text that begins with a header.  When the first
    line is made of hash signs, spaces or none, and a text that is not
    empty, holds none of the characters [sanitize_filename] removes, has no
    white space but single spaces between its words, is at most 50
    characters long, does not begin with a hash sign and is not an image
    reference, the title is that text, without the marks of the header. *)
Theorem extract_title_header (k j : nat) t tail :
  (0 < k)%nat ->
  t <> [] -> clean t = true -> tidy t = true -> (length t <= 50)%nat ->
  startswith [HASH] t = false -> is_image_only t = false ->
  tail = [] \/ (exists rest, tail = NL :: rest) ->
  extract_title ((repeat HASH k ++ repeat SPACE j ++ t) ++ tail) = t.
Proof.
  intros Hk Hne Hc Ht Hl Hh Himg Htail.
  destruct (tidy_parts t Ht) as (_ & H1 & H2).
  set (first := repeat HASH k ++ repeat SPACE j ++ t).
  assert (Hfirst : exists r, first = HASH :: r).
  { subst first. destruct k as [|k]; [lia|]. by eexists. }
  assert (Hf0 : first <> []) by (destruct Hfirst as [r ->]; done).
  assert (Hf1 : starts_clean first = true) by (by destruct Hfirst as [r ->]).
  assert (Hf2 : starts_clean (rev first) = true).
  { subst first. rewrite !rev_app_distr, <- app_assoc, starts_clean_app; [done|].
    intros H. apply (f_equal (@rev char)) in H. by rewrite rev_involutive in H. }
  assert (Hf3 : mem_char NL first = false).
  { subst first. rewrite !mem_char_app_orb, !mem_char_repeat by done.
    by rewrite tidy_no_newline. }
  destruct (title_lines first tail Hf0 Hf1 Hf2 Hf3 Htail) as [more Hlines].
  unfold extract_title.
  assert (truthy (first ++ tail) = true) as -> by (destruct Hfirst as [r ->]; done).
  cbn [negb]. cbv zeta. rewrite Hlines.
  rewrite (strip_fixed first) by done.
  assert (startswith [HASH] first = true) as -> by (by destruct Hfirst as [r ->]).
  assert (strip_header_marks first = t) as ->.
  { unfold strip_header_marks. subst first. rewrite lstrip_char_repeat.
    assert (lstrip_char HASH (repeat SPACE j ++ t) = repeat SPACE j ++ t) as ->.
    { destruct j as [|j]; [|done]. cbn [repeat app].
      destruct t as [|c r]; [done|]. cbn [lstrip_char].
      cbn [startswith] in Hh. rewrite andb_true_r in Hh.
      unfold char_eqb in *. by rewrite N.eqb_sym, Hh. }
    rewrite lstrip_spaces. by apply lstrip_fixed. }
  rewrite (strip_fixed t) by done. rewrite Himg. cbn [negb].
  by apply sanitize_filename_fixed.
Qed.

End TitleLines.

(** ** Local times *)

Section LocalTime.

Context `{rt : PyRuntime}.

Implicit Types (dt : datetime) (s : pystr).

Lemma dict_get_range (d : list (pystr * Z)) (key : pystr) (default lo hi : Z) :
  Forall (fun kv => lo <= snd kv <= hi) d -> lo <= default <= hi ->
  lo <= dict_get d key default <= hi.
Proof.
  intros Hd Hdef. induction Hd as [|[k v] rest Hv _ IH]; [done|].
  cbn [dict_get]. by destruct (str_eqb k key).
Qed.

(** The offsets of the two tables, and the default, are whole hours from 8
    hours behind UTC to none. *)
Lemma get_timezone_offset_range (timezone_str : pystr) dt (offset : Z) :
  get_timezone_offset timezone_str dt = Some offset -> -8 <= offset <= 0.
Proof.
  assert (H1 : -8 <= dict_get TIMEZONE_OFFSETS_DST timezone_str (-6) <= 0).
  { apply dict_get_range; [|lia].
    unfold TIMEZONE_OFFSETS_DST. repeat constructor; cbn; lia. }
  assert (H2 : -8 <= dict_get TIMEZONE_OFFSETS_STD timezone_str (-6) <= 0).
  { apply dict_get_range; [|lia].
    unfold TIMEZONE_OFFSETS_STD. repeat constructor; cbn; lia. }
  unfold get_timezone_offset. destruct (is_dst dt) as [[|]|]; [| |done].
  - intros H. by injection H as <-.
  - intros H. by injection H as <-.
Qed.

(** X19. The local time is the parsed time moved by whole hours.  When the
    date string parses to a time with fields in range and converts, the zone
    has an offset of 8 to 0 hours behind UTC, the minute, the second and the
    microsecond of the result are those of the parsed time, its hour is the
    parsed hour plus the offset, modulo 24, and it carries no zone. *)
Theorem local_time_shifts_hours (iso timezone_str : pystr) (dt0 dt : datetime) :
  fromisoformat (replace_Z iso) = Some dt0 -> valid_time dt0 ->
  convert_to_local_time iso timezone_str = Some dt ->
  exists offset,
    get_timezone_offset timezone_str dt0 = Some offset
    /\ -8 <= offset <= 0
    /\ hour dt = (hour dt0 + offset) mod 24
    /\ minute dt = minute dt0 /\ second dt = second dt0
    /\ microsecond dt = microsecond dt0
    /\ tzinfo dt = None.
Proof.
  intros Hparse (Hh & Hm & Hs & _). unfold convert_to_local_time.
  destruct (negb (truthy iso)); [done|]. rewrite Hparse.
  destruct (get_timezone_offset timezone_str dt0) as [offset|] eqn:Hoff; [|done].
  pose proof (get_timezone_offset_range _ _ _ Hoff) as Hrange.
  unfold add_hours, add_seconds. cbv zeta.
  destruct (_ && _); [|done].
  destruct (ord2ymd _) as [[y m] d]. intros [= <-].
  exists offset. cbn [hour minute second microsecond tzinfo replace_tzinfo].
  set (o := ymd2ord (year dt0) (month dt0) (day dt0)). clearbody o.
  split_and!; try done; Z.to_euclidean_division_equations; lia.
Qed.

Lemma strftime_date_length dt : length (strftime_date dt) = 10%nat.
Proof. reflexivity. Qed.

(** X20. The length of a file name.  Whatever the entry, its file name has
    77 characters at most: 12 at most for the date, 50 at most for the
    title, 8 at most of the identifier, and the 7 characters between and
    around them. *)
Theorem generate_filename_length (e : entry) :
  (length (generate_filename e) <= 77)%nat.
Proof.
  unfold generate_filename. cbv zeta.
  destruct (extract_title_shape (get_or (text e) [])) as (_ & _ & _ & Hl).
  rewrite !length_app, length_take.
  destruct (convert_to_local_time _ _);
    [rewrite strftime_date_length|]; cbn [length UNKNOWN_DATE DOT_MD]; lia.
Qed.

End LocalTime.

(** ** Formatted times *)

Section FormattedTimes.

Implicit Types (a b : pystr) (n m x y : Z) (c : char).

Lemma digit_eq x y : x mod 10 = y mod 10 -> digit x = digit y.
Proof. unfold digit. by intros ->. Qed.

Lemma digit_ltb x y :
  0 <= x < 10 -> 0 <= y < 10 -> (digit x <? digit y)%N = (x <? y).
Proof.
  intros Hx Hy. unfold digit. rewrite !Z.mod_small by done.
  destruct (Z.ltb_spec x y), (N.ltb_spec (Z.to_N (48 + x)) (Z.to_N (48 + y)));
    try done; lia.
Qed.

Lemma str_le_digit x y a b :
  0 <= x < 10 -> 0 <= y < 10 ->
  str_le (digit x :: a) (digit y :: b)
  = if x <? y then true else if y <? x then false else str_le a b.
Proof. intros Hx Hy. cbn [str_le]. by rewrite !digit_ltb. Qed.

Lemma str_le_same c a b : str_le (c :: a) (c :: b) = str_le a b.
Proof. cbn [str_le]. by rewrite N.ltb_irrefl. Qed.

Ltac ltb_cases :=
  repeat match goal with
         | |- context [Z.ltb ?u ?v] => destruct (Z.ltb_spec u v)
         end;
  try reflexivity; exfalso; Z.to_euclidean_division_equations; lia.

(** Two digits, compared as strings and as numbers. *)
Lemma str_le_pad2 n m a b :
  0 <= n < 100 -> 0 <= m < 100 ->
  str_le (pad2 n ++ a) (pad2 m ++ b)
  = if n <? m then true else if m <? n then false else str_le a b.
Proof.
  intros Hn Hm. unfold pad2. cbn [app].
  rewrite (digit_eq n (n mod 10)), (digit_eq m (m mod 10))
    by (by rewrite Z.mod_mod).
  rewrite !str_le_digit
    by (Z.to_euclidean_division_equations; lia).
  ltb_cases.
Qed.

Lemma pad4_pad2 n :
  pad4 n = pad2 (n / 100) ++ pad2 (n mod 100).
Proof.
  unfold pad4, pad2. cbn [app].
  rewrite (digit_eq (n / 1000) (n / 100 / 10)),
    (digit_eq (n / 10) (n mod 100 / 10)), (digit_eq n (n mod 100));
    [done| | |]; Z.to_euclidean_division_equations; lia.
Qed.

(** Four digits, compared as strings and as numbers. *)
Lemma str_le_pad4 n m a b :
  0 <= n < 10000 -> 0 <= m < 10000 ->
  str_le (pad4 n ++ a) (pad4 m ++ b)
  = if n <? m then true else if m <? n then false else str_le a b.
Proof.
  intros Hn Hm. rewrite !pad4_pad2, <- !app_assoc.
  rewrite !str_le_pad2 by (Z.to_euclidean_division_equations; lia).
  ltb_cases.
Qed.

(** X21. Formatted times sort as times.  For two times with a year of four
    digits and the other fields in range, the strings
    [format_local_datetime] gives them compare, as strings, the way the times
    compare by year, month, day, hour, minute and second. *)
Theorem format_local_datetime_order (d1 d2 : datetime) :
  printable d1 -> printable d2 ->
  str_le (format_local_datetime d1) (format_local_datetime d2)
  = lex_leb (take 6 (dt_key d1)) (take 6 (dt_key d2)).
Proof.
  intros (Hy1 & Hm1 & Hd1 & Hh1 & Hi1 & Hs1) (Hy2 & Hm2 & Hd2 & Hh2 & Hi2 & Hs2).
  unfold format_local_datetime, strftime_date. rewrite <- !app_assoc.
  rewrite <- (app_nil_r (pad2 (second d1))), <- (app_nil_r (pad2 (second d2))).
  rewrite str_le_pad4 by lia. cbn [app]. rewrite str_le_same.
  rewrite str_le_pad2 by done. cbn [app]. rewrite str_le_same.
  rewrite str_le_pad2 by done. cbn [app]. rewrite str_le_same.
  rewrite str_le_pad2 by done. cbn [app]. rewrite str_le_same.
  rewrite str_le_pad2 by done. cbn [app]. rewrite str_le_same.
  rewrite str_le_pad2 by done.
  reflexivity.
Qed.

End FormattedTimes.

(** ** One file for a key *)

Section SingleFiles.

Context `{rt : PyRuntime}.

Implicit Types (a : args) (e : entry) (w : world) (st : run_state) (s : stats)
  (n g f k : pystr) (files : gmap pystr pystr) (entries : list entry).

Lemma single_match_sub k files files' :
  dom files' ⊆ dom files -> single_match k files -> single_match k files'.
Proof. intros Hsub H n1 n2 H1 H2. apply H; by apply Hsub. Qed.







End SingleFiles.

(** ** Files and texts without the expected line *)

Section MissingLines.

Context `{rt : PyRuntime}.

Implicit Types (a : args) (e : entry) (w : world) (s t p : pystr) (c : char).

(** Reading in text mode brings no new occurrence of a string that has no
    newline in it. *)
Lemma startswith_universal p s :
  mem_char NL p = false ->
  startswith p (universal_newlines s) = true -> startswith p s = true.
Proof.
  revert s. induction p as [|x p IH]; intros s Hp; [done|].
  apply mem_char_cons in Hp as [Hx Hp].
  destruct s as [|c r]; [done|]. cbn [universal_newlines].
  destruct (char_eqb c CR) eqn:E.
  - cbn [startswith]. intros H. apply andb_true_iff in H as [H _].
    apply char_eqb_eq in H. by subst x.
  - cbn [startswith]. intros H. apply andb_true_iff in H as [H1 H2].
    rewrite H1. by apply IH.
Qed.

Lemma has_infix_cons p c s : has_infix p s = true -> has_infix p (c :: s) = true.
Proof. intros H. cbn [has_infix]. rewrite H. apply orb_true_r. Qed.

Lemma has_infix_universal_len (n : nat) p s :
  (length s <= n)%nat -> p <> [] -> mem_char NL p = false ->
  has_infix p (universal_newlines s) = true -> has_infix p s = true.
Proof.
  intros Hlen Hne Hp. revert s Hlen.
  induction n as [|n IH]; intros s Hlen.
  - destruct s; [|cbn in Hlen; lia]. by destruct p.
  - destruct s as [|c r]; [by destruct p|]. cbn [length] in Hlen.
    destruct (startswith p (universal_newlines (c :: r))) eqn:Hs.
    { intros _. apply startswith_universal in Hs; [|done].
      destruct p; [done|]. cbn [has_infix]. by rewrite Hs. }
    cbn [universal_newlines] in *. destruct (char_eqb c CR) eqn:E.
    + cbn [has_infix]. rewrite Hs. cbn [orb].
      destruct r as [|d r']; [by destruct p|].
      destruct (char_eqb d NL).
      * intros H. apply has_infix_cons, has_infix_cons, IH; [|done].
        cbn [length] in Hlen. lia.
      * intros H. apply has_infix_cons, IH; [lia|done].
    + cbn [has_infix]. rewrite Hs. cbn [orb].
      intros H. apply has_infix_cons, IH; [lia|done].
Qed.

Lemma search_modified_infix (b : bool) s g :
  search_modified b s = Some g -> has_infix MODIFIED_KEY s = true.
Proof.
  revert b. induction s as [|c r IH]; intros b.
  - cbn [search_modified]. destruct b; [|done]. by cbn.
  - cbn [search_modified].
    destruct (if b then match_modified (c :: r) else None) as [g'|] eqn:Hm.
    + intros _. destruct b; [|done]. unfold match_modified in Hm.
      destruct (startswith MODIFIED_KEY (c :: r)) eqn:Hs; [|done].
      cbn [has_infix]. by rewrite Hs.
    + intros H. apply has_infix_cons. by eapply IH.
Qed.

(** A text without the key of the modification time gives no date. *)
Lemma extract_modified_date_none s :
  has_infix MODIFIED_KEY s = false -> extract_modified_date s = None.
Proof.
  intros H. unfold extract_modified_date.
  destruct (search_modified true (universal_newlines s)) as [g|] eqn:Hs; [|done].
  apply search_modified_infix in Hs.
  apply (has_infix_universal_len (length s)) in Hs; [congruence|lia|done|done].
Qed.

(** X24. A file without modification time is always updated.  In update
    mode, when the lookup finds for an entry with text a file whose text has
    no [modified:] anywhere, the entry is STALE: it is never taken for up to
    date, whatever its own modification time. *)
Theorem file_without_date_is_stale a e w (files : gmap pystr pystr)
  (g content : pystr) :
  update a = true -> texted e = true -> journal w = Some files ->
  find_existing_file w (entry_key e) = Done (Some g) ->
  files !! g = Some content -> has_infix MODIFIED_KEY content = false ->
  decide_entry a e w = Stale g.
Proof.
  intros Hupd Ht Hj Hfind Hg Hc.
  rewrite decide_entry_texted, Hfind, Hupd by done.
  unfold extract_modified_date_from_file. rewrite Hj, Hg.
  by rewrite extract_modified_date_none.
Qed.

(** No line of [lines] can give a title: each is empty, once stripped, or
    begins with a bang and a bracket. *)
Lemma first_title_line_none (lines : list pystr) :
  Forall (fun l => strip l = [] \/ startswith BANG_BRACKET (strip l) = true) lines ->
  first_title_line lines = None.
Proof.
  induction 1 as [|l rest [Hl|Hl] _ IH]; [done| |]; cbn [first_title_line].
  - by rewrite Hl.
  - by rewrite Hl, andb_false_r.
Qed.

(** X25. A text of images only has no title of its own.  When every line of
    the text, once the white space around it is taken off, is empty or begins
    with a bang and a bracket, the title is [Untitled]. *)
Theorem extract_title_images_only (text : pystr) :
  Forall (fun l => strip l = [] \/ startswith BANG_BRACKET (strip l) = true)
    (split_lines (strip text)) ->
  extract_title text = Untitled.
Proof.
  intros H. unfold extract_title. destruct (negb (truthy text)); [done|].
  cbv zeta. rewrite (first_title_line_none _ H).
  destruct (split_lines (strip text)) as [|l0 rest]; [done|].
  apply Forall_cons in H as [[Hl|Hl] _]; [by rewrite Hl|].
  destruct (strip l0) as [|c r]; [done|].
  assert (c = BANG) as ->; [|reflexivity].
  unfold BANG_BRACKET in Hl. cbn [startswith] in Hl.
  apply andb_true_iff in Hl as [Hc _]. apply char_eqb_eq in Hc. by subst c.
Qed.

End MissingLines.

(** ** Titles: what is cut *)

Section Truncation.

Implicit Types (s t text : pystr).

Lemma strip_prefix s : starts_clean s = true -> prefix (strip s) s.
Proof.
  intros H. unfold strip. rewrite lstrip_fixed by done. apply rstrip_prefix.
Qed.

Lemma starts_clean_take (n : nat) s :
  starts_clean s = true -> starts_clean (take n s) = true.
Proof. destruct s, n; done. Qed.

(** X26. Cutting a title takes characters off its end only.  The result of
    [sanitize_filename] is [Untitled], or the beginning of the text that is
    left when the forbidden characters are removed, each run of white space
    is made one space and the white space at both ends is taken off. *)
Theorem sanitize_filename_prefix text (max_length : nat) :
  sanitize_filename text max_length = Untitled
  \/ prefix (sanitize_filename text max_length)
       (strip (collapse_spaces (remove_special text))).
Proof.
  unfold sanitize_filename.
  destruct (negb (truthy text)); [by left|]. cbv zeta.
  set (s1 := strip (collapse_spaces (remove_special text))).
  assert (Hs1 : starts_clean s1 = true) by apply strip_ends.
  destruct (negb (truthy s1)); [by left|].
  set (s2 := if (max_length <? length s1)%nat then _ else s1).
  assert (Hs2 : prefix s2 s1).
  { subst s2. destruct (max_length <? length s1)%nat; [|done].
    destruct (20 <? rfind SPACE (take max_length s1))%Z.
    - etransitivity; [apply strip_prefix; by do 2 apply starts_clean_take|].
      etransitivity; apply prefix_take.
    - etransitivity; [apply strip_prefix; by apply starts_clean_take|].
      apply prefix_take. }
  destruct (truthy s2); [by right|by left].
Qed.

End Truncation.

(** ** Runs on concrete exports, with the reference runtime *)

(** C2, on the code: the entry [utc_entry] is converted into a fresh
    directory and the run is repeated in update mode.  The file of the first
    run records the modification time 12:00:00 of the first of January 2020,
    the entry has the modification time 12:00:00 UTC of that day, both read as
    the same date and time; yet the second run takes the entry for STALE and
    counts it as updated, not skipped. *)
Theorem unmodified_entry_is_stale :
  extract_modified_date_from_file (after_update_run [utc_entry] fresh_world)
    (generate_filename utc_entry)
  = Some (str "2020-01-01T12:00:00")
  /\ modifiedDate utc_entry = Some (str "2020-01-01T12:00:00Z")
  /\ dt_key <$> fromisoformat (replace_Z (str "2020-01-01T12:00:00Z"))
     = dt_key <$> fromisoformat (str "2020-01-01T12:00:00")
  /\ decide_entry update_args utc_entry (after_update_run [utc_entry] fresh_world)
     = Stale (generate_filename utc_entry)
  /\ summary (process_entries update_args (Parsed (Some [utc_entry]))
                (after_update_run [utc_entry] fresh_world))
     = Some (mk_stats 1 0 1 0 0).
Proof. vm_compute. repeat split. Qed.



(** ** The theorems on concrete exports *)

(** The suffix of two entries with the same identifier and different
    texts. *)
Lemma filename_suffix_stable_witness :
  generate_filename utc_entry
  = filename_stem utc_entry ++ [SPACE; LPAREN]
    ++ take 8 (str "ABCDEF0123456789") ++ DOT_MD
  /\ generate_filename retitled_entry
     = filename_stem retitled_entry ++ [SPACE; LPAREN]
       ++ take 8 (str "ABCDEF0123456789") ++ DOT_MD
  /\ length (take 8 (str "ABCDEF0123456789"))
     = Nat.min 8 (length (str "ABCDEF0123456789"))
  /\ ((length (str "ABCDEF0123456789") < 8)%nat ->
      take 8 (str "ABCDEF0123456789") = str "ABCDEF0123456789").
Proof.
  apply (filename_suffix_stable utc_entry retitled_entry (str "ABCDEF0123456789"));
    reflexivity.
Defined.




(** ** The properties on concrete inputs *)

(** A title that is kept. *)
Lemma sanitize_filename_keeps_tidy_witness :
  sanitize_filename plain_title 50 = plain_title.
Proof.
  apply (sanitize_filename_keeps_tidy plain_title 50);
    [done|reflexivity|reflexivity|cbn; lia].
Defined.

(** A text with a colon and two spaces, sanitized twice. *)
Lemma sanitize_filename_idempotent_witness :
  sanitize_filename (sanitize_filename (str "a:  b") 50) 50
  = sanitize_filename (str "a:  b") 50.
Proof. apply (sanitize_filename_idempotent (str "a:  b") 50). lia. Defined.

(** The slash and the file name of [utc_entry]. *)
Lemma generate_filename_chars_witness :
  mem_char SLASH (generate_filename utc_entry)
  = mem_char SLASH (take 8 (get_or (uuid utc_entry) UNKNOWN)).
Proof. apply (generate_filename_chars utc_entry SLASH). reflexivity. Defined.

(** The extension [JPG], in capitals. *)
Lemma normalize_extension_canonical_witness :
  normalize_extension (str "JPG") <> JPG
  /\ normalize_extension (normalize_extension (str "JPG"))
     = normalize_extension (str "JPG")
  /\ normalize_extension (str_lower (str "JPG")) = normalize_extension (str "JPG")
  /\ normalize_extension [] = JPEG.
Proof. apply (normalize_extension_canonical (str "JPG")). reflexivity. Defined.

(** The token of [sample_photo] between two words. *)
Lemma link_names_the_copy_witness :
  convert_image_links
    (str "See " ++ image_token (str "it")
                     (get_or (photo_identifier sample_photo) [])
     ++ str " there")
    [sample_photo]
  = str "See " ++ (PHOTOS_OPEN ++ photo_dest sample_photo ++ PHOTOS_CLOSE)
    ++ convert_image_links (str " there") [sample_photo].
Proof.
  apply (link_names_the_copy [sample_photo] sample_photo (str "See ") (str "it")
           (str " there")); try reflexivity.
  - by apply list_elem_of_singleton.
  - apply NoDup_singleton.
  - done.
Defined.

(** An image of the web is left alone. *)
Lemma convert_image_links_leaves_other_text_witness :
  convert_image_links web_image [sample_photo] = web_image.
Proof.
  apply (convert_image_links_leaves_other_text web_image [sample_photo]).
  right. reflexivity.
Defined.

(** The modification time of [utc_entry], written and read back. *)
Lemma modified_date_round_trip_witness :
  extract_modified_date (full_content utc_entry)
  = Some (format_local_datetime (replace_tzinfo noon_2020_utc None))
  /\ forall w (files : gmap pystr pystr) (name : pystr),
       journal w = Some files -> files !! name = Some (full_content utc_entry) ->
       extract_modified_date_from_file w name
       = Some (format_local_datetime (replace_tzinfo noon_2020_utc None)).
Proof.
  apply (modified_date_round_trip utc_entry noon_2020_iso
           (replace_tzinfo noon_2020_utc None)); reflexivity.
Defined.

(** The entries of [small_export] have plain keys. *)
Lemma small_export_keys :
  forall e, e ∈ small_export -> texted e = true ->
    is_Some (uuid e) /\ glob_plain (entry_key e) = true.
Proof.
  apply (proj1 (Forall_forall
                  (fun e => texted e = true ->
                            is_Some (uuid e) /\ glob_plain (entry_key e) = true)
                  small_export)).
  unfold small_export.
  repeat (first [apply Forall_cons_2|apply Forall_nil_2]);
    intros _; (split; [by eexists|reflexivity]).
Qed.





(** The default mode over a directory that has the file of [utc_entry]. *)
Lemma default_mode_keeps_files_witness :
  entry_files (after_update_run [utc_entry] fresh_world)
  ⊆ entry_files (run_world default_args small_export
                   (after_update_run [utc_entry] fresh_world)).
Proof.
  apply (default_mode_keeps_files default_args small_export
           (after_update_run [utc_entry] fresh_world)).
  - reflexivity.
  - apply small_export_keys.
Defined.



(** A text of two lines. *)
Lemma extract_title_first_line_witness :
  extract_title (plain_title ++ NL :: str "It rained.") = plain_title.
Proof.
  apply (extract_title_first_line plain_title (NL :: str "It rained."));
    try reflexivity; try done.
  - cbn. lia.
  - right. by eexists.
Defined.

(** A header of the second level. *)
Lemma extract_title_header_witness :
  extract_title ((repeat HASH 2 ++ repeat SPACE 1 ++ plain_title) ++ []) = plain_title.
Proof.
  apply (extract_title_header 2 1 plain_title []); try reflexivity; try done.
  - lia.
  - cbn. lia.
  - by left.
Defined.

(** Noon UTC in Chicago, in winter. *)
Lemma local_time_shifts_hours_witness :
  exists offset,
    get_timezone_offset AMERICA_CHICAGO noon_2020_utc = Some offset
    /\ -8 <= offset <= 0
    /\ hour (mk_datetime 2020 1 1 6 0 0 0 None) = (hour noon_2020_utc + offset) mod 24
    /\ minute (mk_datetime 2020 1 1 6 0 0 0 None) = minute noon_2020_utc
    /\ second (mk_datetime 2020 1 1 6 0 0 0 None) = second noon_2020_utc
    /\ microsecond (mk_datetime 2020 1 1 6 0 0 0 None) = microsecond noon_2020_utc
    /\ tzinfo (mk_datetime 2020 1 1 6 0 0 0 None) = None.
Proof.
  apply (local_time_shifts_hours noon_2020_iso AMERICA_CHICAGO noon_2020_utc
           (mk_datetime 2020 1 1 6 0 0 0 None)).
  - reflexivity.
  - unfold valid_time. cbn. lia.
  - vm_compute. reflexivity.
Defined.

(** A day of November 2023 and a day of July 2024. *)
Lemma format_local_datetime_order_witness :
  str_le (format_local_datetime first_november_sunday_2023)
    (format_local_datetime noon_july_2024)
  = lex_leb (take 6 (dt_key first_november_sunday_2023))
      (take 6 (dt_key noon_july_2024)).
Proof.
  apply (format_local_datetime_order first_november_sunday_2023 noon_july_2024);
    unfold printable; cbn; lia.
Defined.



(** The file written by hand has no modification time. *)
Lemma file_without_date_is_stale_witness :
  decide_entry update_args utc_entry notes_world
  = Stale (str "My notes (ABCDEF01).md").
Proof.
  apply (file_without_date_is_stale update_args utc_entry notes_world
           notes_files (str "My notes (ABCDEF01).md") (str "Hello"));
    reflexivity.
Defined.

(** The text of [pictured_entry] is one image. *)
Lemma extract_title_images_only_witness :
  extract_title (str "![](dayone-moment://AB12)") = Untitled.
Proof.
  apply (extract_title_images_only (str "![](dayone-moment://AB12)")).
  vm_compute. apply Forall_cons_2; [|apply Forall_nil_2]. right. reflexivity.
Defined.
